(** * tmux-agentline: the OTLP receiver (scripts/otel-receiver.py)

    A shallow embedding of [OTELReceiver] (the pane registry, the event
    classifier, the ingestion of records) and of the idle checker of
    [run_server], with the properties of the specification proved or refuted
    on it.

    Modelling conventions.
    - Attribute values are Python scalars ([str], [int], [bool]); truth
      tests, [==] against a literal and f-string formatting follow Python.
    - Attribute dictionaries and the directory of state files are finite
      maps ([gmap]).  [self.mappings] is a [dict] whose iteration order
      (insertion order) decides which pending entry is adopted, so it is an
      association list in insertion order; a key is a string or, when a
      record carries a numeric conversation id, a number.
    - [time.time()] is an integer [now] given by the caller, one reading per
      call; only differences and comparisons of readings are used.
    - A method runs in a state-and-exception monad: it returns or raises,
      and leaves the receiver in some state either way.  Locks are not
      modelled: every method runs alone.
    - What the process does outside the receiver is state as well: the state
      directory, the count of [tmux refresh-client] commands, the request to
      shut the server down. *)

From Stdlib Require Import ZArith List Bool Lia.
From Stdlib Require Import Strings.String Strings.Ascii.
From stdpp Require Import base option list gmap strings pretty fin_maps.

Local Open Scope Z_scope.
Local Open Scope string_scope.

(** ** Python scalars *)

Module Py.

(** The values an extracted attribute can hold: [str], [int] or [bool]. *)
Inductive value : Type :=
  | VStr (s : string)
  | VInt (z : Z)
  | VBool (b : bool).

Global Instance value_eq_dec : EqDecision value.
Proof. solve_decision. Defined.

(** Truth value of a scalar, as [if v:] tests it. *)
Definition truthy (v : value) : bool :=
  match v with
  | VStr s => negb (String.eqb s "")
  | VInt z => negb (Z.eqb z 0)
  | VBool b => b
  end.

(** Truth value of an optional scalar; [None] is Python's [None]. *)
Definition truthy_opt (o : option value) : bool :=
  match o with
  | Some v => truthy v
  | None => false
  end.

(** [str(v)], the text an f-string substitutes for [{v}]. *)
Definition str (v : value) : string :=
  match v with
  | VStr s => s
  | VInt z => pretty z
  | VBool true => "True"
  | VBool false => "False"
  end.

(** [v == "lit"] for a string literal: only a [str] can be equal to it. *)
Definition eq_lit (v : value) (lit : string) : bool :=
  match v with
  | VStr s => String.eqb s lit
  | _ => false
  end.

(** [a or b]. *)
Definition or_else (a b : value) : value :=
  if truthy a then a else b.

(** [s.lstrip("%")]. *)
Fixpoint lstrip_percent (s : string) : string :=
  match s with
  | String "%"%char rest => lstrip_percent rest
  | _ => s
  end.

End Py.

Export Py.

(** ** Attribute maps and the classifier *)

(** [attributes.get(key, default)]. *)
Definition attr_get (attributes : gmap string value) (key : string)
    (default : value) : value :=
  match attributes !! key with
  | Some v => v
  | None => default
  end.

(** The three states of the status line. *)
Inductive status : Type := Running | Attention | Done.

Definition status_name (s : status) : string :=
  match s with
  | Running => "running"
  | Attention => "attention"
  | Done => "done"
  end.

(** [f"<prefix>{tool}" if tool else "<fallback>"]. *)
Definition tool_message (prefix : string) (tool : value) (fallback : string)
    : string :=
  if truthy tool then prefix ++ str tool else fallback.

(** [OTELReceiver._map_event_to_state].  The event name is whatever
    [_process_record] found, so it is a scalar too. *)
Definition _map_event_to_state (event_name : value)
    (attributes : gmap string value) : option status * string :=
  let model := attr_get attributes "model" (VStr "") in
  let tool := attr_get attributes "tool_name"
                (attr_get attributes "tool" (VStr "")) in
  let status := attr_get attributes "status" (VStr "") in
  if eq_lit event_name "codex.conversation_starts" then
    (Some Running,
     if truthy model then "Codex: " ++ str model else "Codex started")
  else if eq_lit event_name "codex.tool_decision" then
    if eq_lit status "pending"
       || truthy_opt (attributes !! "needs_approval") then
      (Some Attention, tool_message "Approve? " tool "Approval needed")
    else if eq_lit status "approved" then
      (Some Running, tool_message "Approved: " tool "Tool approved")
    else if eq_lit status "denied" then
      (Some Done, tool_message "Denied: " tool "Tool denied")
    else (None, "")
  else if eq_lit event_name "codex.tool_result" then
    let success := attr_get attributes "success" (VBool true) in
    if negb (truthy success)
       || eq_lit status "failed"
       || truthy_opt (attributes !! "error") then
      (Some Attention, tool_message "Failed: " tool "Tool failed")
    else (Some Running, tool_message "Ran: " tool "Tool completed")
  else if eq_lit event_name "codex.conversation_ends" then
    (Some Done, "Codex finished")
  else if eq_lit event_name "codex.response" then
    (Some Running, "Generating...")
  else if eq_lit event_name "codex.user_input_required" then
    (Some Attention, "Input needed")
  else (None, "").

(** ** The mapping table *)

(** A dictionary key.  Python compares and hashes [True] and [False] as the
    integers 1 and 0, so a [bool] used as a key denotes the integer. *)
Inductive key : Type :=
  | KStr (s : string)
  | KNum (z : Z).

Global Instance key_eq_dec : EqDecision key.
Proof. solve_decision. Defined.

Definition key_of (v : value) : key :=
  match v with
  | VStr s => KStr s
  | VInt z => KNum z
  | VBool true => KNum 1
  | VBool false => KNum 0
  end.

(** The dictionary stored under each key of [self.mappings]. *)
Record mapping : Type := Mapping {
  pane_id : string;
  registered_at : Z;
  conversation_id : option value
}.

Global Instance mapping_eq_dec : EqDecision mapping.
Proof. solve_decision. Defined.

(** [self.mappings], in insertion order. *)
Abbreviation table := (list (key * mapping)).

Definition keys (d : table) : list key := d.*1.

(** [d.get(k)]. *)
Fixpoint dict_get (k : key) (d : table) : option mapping :=
  match d with
  | [] => None
  | (k', v) :: rest => if decide (k' = k) then Some v else dict_get k rest
  end.

(** [d[k] = v]: an existing key keeps its place, a new key goes last. *)
Fixpoint dict_set (k : key) (v : mapping) (d : table) : table :=
  match d with
  | [] => [(k, v)]
  | (k', v') :: rest =>
      if decide (k' = k) then (k', v) :: rest
      else (k', v') :: dict_set k v rest
  end.

(** The table without key [k]. *)
Definition dict_remove (k : key) (d : table) : table :=
  filter (λ kv, kv.1 ≠ k) d.

(** [del d[k]]; [None] is a [KeyError]. *)
Definition dict_del (k : key) (d : table) : option table :=
  match dict_get k d with
  | Some _ => Some (dict_remove k d)
  | None => None
  end.

(** ** State, environment and the monad of receiver methods *)

(** A persisted [<pane>.state] file, the JSON object [_write_state] dumps. *)
Record state_file : Type := StateFile {
  sf_status : status;
  sf_timestamp : Z;
  sf_session_id : value;
  sf_tmux_window : string;
  sf_message : string
}.

(** The receiver object together with what its methods touch outside it:
    the state directory (file stem to content), the number of
    [tmux refresh-client -S] commands issued, and whether the idle checker
    has called [server.shutdown()]. *)
Record receiver : Type := Receiver {
  mappings : table;
  last_activity : Z;
  state_dir : gmap string state_file;
  refresh_calls : nat;
  shutdown_requested : bool
}.

(** What the surrounding process provides: whether [$TMUX] is set and what
    [tmux display-message -p '#{window_id}'] prints for a pane ([None] when
    the command fails). *)
Record environ : Type := Environ {
  env_TMUX : bool;
  env_window_id : string → option string
}.

Inductive exn : Type :=
  | AttributeError
  | ValueError
  | KeyError
  | TypeError
  | OverflowError
  | UnicodeDecodeError
  | RecursionError.

(** The result of running a method: it returns or raises, and in both cases
    leaves the receiver in some state. *)
Inductive outcome (A : Type) : Type :=
  | Returns (a : A) (st : receiver)
  | Raises (e : exn) (st : receiver).
Arguments Returns {A} a st.
Arguments Raises {A} e st.

Definition final {A} (o : outcome A) : receiver :=
  match o with
  | Returns _ st => st
  | Raises _ st => st
  end.

Definition M (A : Type) : Type := receiver → outcome A.

Definition ret {A} (a : A) : M A := λ st, Returns a st.

Definition bind {A B} (m : M A) (f : A → M B) : M B :=
  λ st, match m st with
        | Returns a st' => f a st'
        | Raises e st' => Raises e st'
        end.

Definition raise {A} (e : exn) : M A := λ st, Raises e st.

(** A computation from a result that is a value or the exception raised
    in getting it. *)
Definition or_raise {A} (r : exn + A) : M A :=
  match r with
  | inr a => ret a
  | inl e => raise e
  end.

(** [try: m except Exception: pass]. *)
Definition try_except (m : M unit) : M unit :=
  λ st, match m st with
        | Returns _ st' => Returns tt st'
        | Raises _ st' => Returns tt st'
        end.

Definition gets {A} (f : receiver → A) : M A := λ st, Returns (f st) st.

Definition modify (f : receiver → receiver) : M unit :=
  λ st, Returns tt (f st).

Global Instance M_ret : MRet M := @ret.
Global Instance M_bind : MBind M := λ A B f m, bind m f.

(** [for x in xs: body(x)]. *)
Fixpoint for_each {A} (xs : list A) (body : A → M unit) : M unit :=
  match xs with
  | [] => mret tt
  | x :: rest => body x;; for_each rest body
  end.

Definition set_mappings (d : table) (st : receiver) : receiver :=
  Receiver d (last_activity st) (state_dir st) (refresh_calls st)
           (shutdown_requested st).

Definition set_last_activity (t : Z) (st : receiver) : receiver :=
  Receiver (mappings st) t (state_dir st) (refresh_calls st)
           (shutdown_requested st).

Definition set_state_dir (fs : gmap string state_file) (st : receiver)
    : receiver :=
  Receiver (mappings st) (last_activity st) fs (refresh_calls st)
           (shutdown_requested st).

Definition count_refresh (st : receiver) : receiver :=
  Receiver (mappings st) (last_activity st) (state_dir st)
           (S (refresh_calls st)) (shutdown_requested st).

Definition set_shutdown (st : receiver) : receiver :=
  Receiver (mappings st) (last_activity st) (state_dir st)
           (refresh_calls st) true.

(** [self.mappings[k] = v]. *)
Definition store (k : key) (v : mapping) : M unit :=
  modify (λ st, set_mappings (dict_set k v (mappings st)) st).

(** [del self.mappings[k]]. *)
Definition del (k : key) : M unit :=
  λ st, match dict_del k (mappings st) with
        | Some d => Returns tt (set_mappings d st)
        | None => Raises KeyError st
        end.

(** [key.startswith(prefix)]; an [int] has no such method. *)
Definition startswith (k : key) (prefix : string) : M bool :=
  match k with
  | KStr s => mret (String.prefix prefix s)
  | KNum _ => raise AttributeError
  end.

(** ** Configuration *)

Definition IDLE_TIMEOUT : Z := 300.
Definition STALE_MAPPING_TIMEOUT : Z := 600.

(** [OTELReceiver.__init__] at time [now], on an empty state directory. *)
Definition init (now : Z) : receiver := Receiver [] now ∅ 0 false.

(** ** The pane registry *)

Definition touch_activity (now : Z) : M unit :=
  modify (set_last_activity now).

Definition is_idle (now : Z) : M bool :=
  gets (λ st, bool_decide (now - last_activity st > IDLE_TIMEOUT)).

Definition pending_key (pane : string) : string := "pending_" ++ pane.

(** [conversation_id or f"pending_{pane_id}"]. *)
Definition mapping_key_of (pane : string) (conversation : option string)
    : string :=
  match conversation with
  | Some c => if truthy (VStr c) then c else pending_key pane
  | None => pending_key pane
  end.

(** [OTELReceiver.register_pane]. *)
Definition register_pane (pane : string) (conversation : option string)
    (now : Z) : M string :=
  touch_activity now;;
  let mapping_key := mapping_key_of pane conversation in
  store (KStr mapping_key) (Mapping pane now (VStr <$> conversation));;
  mret mapping_key.

(** [OTELReceiver._remove_state]. *)
Definition _remove_state (pane : string) : M unit :=
  modify (λ st, set_state_dir (delete (lstrip_percent pane) (state_dir st)) st).

(** [OTELReceiver._refresh_tmux]. *)
Definition _refresh_tmux (env : environ) : M unit :=
  if env_TMUX env then modify count_refresh else mret tt.

(** [OTELReceiver.unregister_pane]. *)
Definition unregister_pane (env : environ) (pane : string) (now : Z)
    : M unit :=
  touch_activity now;;
  d ← gets mappings;
  let to_remove := keys (filter (λ kv, pane_id kv.2 = pane) d) in
  for_each to_remove del;;
  _remove_state pane;;
  _refresh_tmux env.

(** The dictionary stored under the conversation id when the pending
    binding [v] is adopted. *)
Definition adopted (conversation : value) (v : mapping) : mapping :=
  Mapping (pane_id v) (registered_at v) (Some conversation).

(** The loop of [get_pane_for_conversation] over the snapshot
    [list(self.mappings.items())]. *)
Fixpoint adopt_pending (conversation : value) (items : table)
    : M (option string) :=
  match items with
  | [] => mret None
  | (k, v) :: rest =>
      is_pending ← startswith k "pending_";
      if is_pending && negb (truthy_opt (conversation_id v)) then
        store (key_of conversation) (adopted conversation v);;
        del k;;
        mret (Some (pane_id v))
      else adopt_pending conversation rest
  end.

(** [OTELReceiver.get_pane_for_conversation]. *)
Definition get_pane_for_conversation (conversation : value)
    : M (option string) :=
  d ← gets mappings;
  match dict_get (key_of conversation) d with
  | Some m => mret (Some (pane_id m))
  | None => adopt_pending conversation d
  end.

(** [OTELReceiver.cleanup_stale_mappings]. *)
Definition cleanup_stale_mappings (now : Z) : M unit :=
  d ← gets mappings;
  let to_remove :=
    keys (filter (λ kv, now - registered_at kv.2 > STALE_MAPPING_TIMEOUT) d) in
  for_each to_remove del.

(** ** Ingestion *)

(** What Python's [int(...)] makes of an [intValue] payload: an integer,
    or the exception it raises ([ValueError] for text that is no integer,
    [TypeError] for null, a list or an object, [OverflowError] for an
    infinite number). *)
Inductive int_result : Type :=
  | IntOf (z : Z)
  | IntRaises (e : exn).

(** The tagged value of an OTLP attribute.  A field is [Some] when the key
    is in the JSON object; for [intValue] it holds what [int(...)] makes of
    the payload. *)
Record any_value : Type := AnyValue {
  stringValue : option string;
  intValue : option int_result;
  boolValue : option bool
}.

(** One element of a record's [attributes] list; an absent ["key"] reads
    as the empty string. *)
Record key_value : Type := KeyValue {
  kv_key : option string;
  kv_value : any_value
}.

(** A log record or a span. *)
Record otlp_record : Type := OtlpRecord {
  rec_name : option string;
  rec_attributes : list key_value
}.

(** The decoded request body: [resourceLogs] as the list of its
    [scopeLogs], each the list of its [logRecords]; likewise for spans. *)
Record otlp_data : Type := OtlpData {
  resourceLogs : list (list (list otlp_record));
  resourceSpans : list (list (list otlp_record))
}.

(** The attribute loop at the head of [_process_record]: the attributes,
    or the exception [int(...)] raised. *)
Fixpoint extract_attributes (attrs : list key_value)
    (attributes : gmap string value) : exn + gmap string value :=
  match attrs with
  | [] => inr attributes
  | attr :: rest =>
      let k := default "" (kv_key attr) in
      let v := kv_value attr in
      match stringValue v, intValue v, boolValue v with
      | Some s, _, _ => extract_attributes rest (<[k := VStr s]> attributes)
      | None, Some (IntOf z), _ =>
          extract_attributes rest (<[k := VInt z]> attributes)
      | None, Some (IntRaises e), _ => inl e
      | None, None, Some b =>
          extract_attributes rest (<[k := VBool b]> attributes)
      | None, None, None => extract_attributes rest attributes
      end
  end.

(** The event name and the conversation id [_process_record] reads off the
    attributes. *)
Definition event_name_of (attributes : gmap string value)
    (record : otlp_record) : value :=
  or_else (attr_get attributes "event.name" (VStr ""))
          (VStr (default "" (rec_name record))).

Definition conversation_of (attributes : gmap string value) : value :=
  or_else (attr_get attributes "conversation_id" (VStr ""))
          (attr_get attributes "session_id" (VStr "")).

(** [not pane_id] for the optional pane id. *)
Definition no_pane (pane : option string) : bool :=
  match pane with
  | Some p => negb (truthy (VStr p))
  | None => true
  end.

(** The second scan of [_process_record], over [self.mappings.items()];
    [pane] is the value of the variable [pane_id] before the loop. *)
Fixpoint any_pending (conversation : value) (pane : option string)
    (items : table) : M (option string) :=
  match items with
  | [] => mret pane
  | (k, v) :: rest =>
      is_pending ← startswith k "pending_";
      if (is_pending : bool) then
        (if truthy conversation then
           store (key_of conversation) (adopted conversation v);;
           del k
         else mret tt);;
        mret (Some (pane_id v))
      else any_pending conversation pane rest
  end.

(** [OTELReceiver._write_state]. *)
Definition _write_state (env : environ) (now : Z) (pane : string)
    (st : status) (session : value) (message : string) : M unit :=
  let safe_id := lstrip_percent pane in
  let tmux_window := default "" (env_window_id env pane) in
  modify (λ r, set_state_dir
                 (<[safe_id := StateFile st now session tmux_window message]>
                    (state_dir r)) r).

(** [OTELReceiver._process_record]. *)
Definition _process_record (env : environ) (now : Z) (record : otlp_record)
    : M unit :=
  attributes ← or_raise (extract_attributes (rec_attributes record) ∅);
  let event_name := event_name_of attributes record in
  let conversation := conversation_of attributes in
  if negb (truthy event_name) then mret tt
  else
    pane ← get_pane_for_conversation conversation;
    pane ← (if no_pane pane then
              d ← gets mappings; any_pending conversation pane d
            else mret pane);
    match pane with
    | None => mret tt
    | Some p =>
        if negb (truthy (VStr p)) then mret tt
        else
          match _map_event_to_state event_name attributes with
          | (Some state, message) =>
              _write_state env now p state conversation message;;
              _refresh_tmux env
          | (None, _) => mret tt
          end
    end.

(** [OTELReceiver.process_otel_data]. *)
Definition process_otel_data (env : environ) (now : Z) (data : otlp_data)
    : M unit :=
  touch_activity now;;
  try_except
    (for_each (resourceLogs data) (λ resource_log,
       for_each resource_log (λ scope_log,
         for_each scope_log (_process_record env now)));;
     for_each (resourceSpans data) (λ resource_span,
       for_each resource_span (λ scope_span,
         for_each scope_span (_process_record env now)))).

(** ** Introspection and the idle checker *)

(** The body [GET /health] answers with: the number of mappings and the
    whole seconds since the last activity. *)
Definition health (now : Z) : M (nat * Z) :=
  gets (λ st, (length (mappings st), now - last_activity st)).

(** One round of the loop of [idle_checker], after its sleep; it returns
    whether the loop leaves through [break]. *)
Definition idle_tick (now : Z) : M bool :=
  cleanup_stale_mappings now;;
  idle ← is_idle now;
  if (idle : bool) then modify set_shutdown;; mret true else mret false.

(** [idle_checker], run for the clock readings of its successive rounds. *)
Fixpoint idle_checker (clock : list Z) : M unit :=
  match clock with
  | [] => mret tt
  | now :: later =>
      stop ← idle_tick now;
      if (stop : bool) then mret tt else idle_checker later
  end.

(** ** Vocabulary of the statements *)

(** A dictionary holds each key once. *)
Definition keys_unique (d : table) : Prop := NoDup (keys d).

(** The keys are strings, as [dict[str, dict]] declares. *)
Definition is_str (k : key) : bool :=
  match k with
  | KStr _ => true
  | KNum _ => false
  end.

Definition str_keys (d : table) : Prop := Forall (λ kv, is_str kv.1 = true) d.

(** A pending binding: the key starts with [pending_] and no conversation
    id is set.  This is the test of the loop of [get_pane_for_conversation]. *)
Definition is_pending (kv : key * mapping) : bool :=
  match kv.1 with
  | KStr s => String.prefix "pending_" s && negb (truthy_opt (conversation_id kv.2))
  | KNum _ => false
  end.

(** The pending bindings of a pane. *)
Definition pending_of (pane : string) (d : table) : table :=
  filter (λ kv, is_pending kv = true ∧ pane_id kv.2 = pane) d.

(** What the specification expects of a lookup with the empty conversation
    id when [kv] is a pending binding: its pane is returned, it is deleted,
    and a binding keyed by the empty string exists afterwards. *)
Definition adopts_on_empty_id (st : receiver) (kv : key * mapping) : Prop :=
  ∃ st', get_pane_for_conversation (VStr "") st
         = Returns (Some (pane_id kv.2)) st'
         ∧ dict_get kv.1 (mappings st') = None
         ∧ is_Some (dict_get (KStr "") (mappings st')).

(** [register_pane] called for one pane with each of the given conversation
    ids, at the given times. *)
Definition register_seq (pane : string) (regs : list (option string * Z))
    : M unit :=
  for_each regs (λ r, register_pane pane r.1 r.2 ≫= λ _, mret tt).

(** Every pending binding sits under the key made from its own pane. *)
Definition pending_keyed (d : table) : Prop :=
  Forall (λ kv, is_pending kv = true → kv.1 = KStr (pending_key (pane_id kv.2)))
         d.

(** The event names [_map_event_to_state] has a branch for. *)
Definition recognized_events : list string :=
  ["codex.conversation_starts"; "codex.tool_decision"; "codex.tool_result";
   "codex.conversation_ends"; "codex.response"; "codex.user_input_required"].

Definition recognized (event_name : value) : bool :=
  existsb (eq_lit event_name) recognized_events.

(** The event name [_process_record] finds in a record, when the attribute
    loop does not raise. *)
Definition record_event (record : otlp_record) : option value :=
  match extract_attributes (rec_attributes record) ∅ with
  | inr attributes => Some (event_name_of attributes record)
  | inl _ => None
  end.

(** A method keeps a property of the receiver, whether it returns or
    raises. *)
Definition preserves {A} (I : receiver → Prop) (m : M A) : Prop :=
  ∀ st, I st → I (final (m st)).

(** The table is a dictionary whose pending bindings are keyed by their
    pane. *)
Definition table_ok (st : receiver) : Prop :=
  keys_unique (mappings st) ∧ pending_keyed (mappings st).

(** The idle checker, run at [now] on [st], goes on: the round returns
    without raising, does not leave the loop and does not ask the server to
    shut down. *)
Definition keeps_alive (now : Z) (st : receiver) : Prop :=
  ∃ st', idle_tick now st = Returns false st'
         ∧ shutdown_requested st' = shutdown_requested st.

(** The tool shown in a message: the [tool_name] attribute when the key is
    there, else the [tool] attribute, else the empty string. *)
Definition tool_of (attributes : gmap string value) : value :=
  attr_get attributes "tool_name" (attr_get attributes "tool" (VStr "")).

(** The attribute [key] is the string [s]. *)
Definition attr_is (attributes : gmap string value) (key s : string) : Prop :=
  attributes !! key = Some (VStr s).

(** The attribute [key] is there and true as a condition. *)
Definition attr_truthy (attributes : gmap string value) (key : string)
    : Prop :=
  ∃ v, attributes !! key = Some v ∧ truthy v = true.

(** The attribute [key] is there and false as a condition. *)
Definition attr_falsy (attributes : gmap string value) (key : string)
    : Prop :=
  ∃ v, attributes !! key = Some v ∧ truthy v = false.

(** The conditions under which a tool decision asks for approval and a
    tool result counts as failed. *)
Definition asks_approval (attributes : gmap string value) : Prop :=
  attr_is attributes "status" "pending" ∨ attr_truthy attributes "needs_approval".

Definition reports_failure (attributes : gmap string value) : Prop :=
  attr_falsy attributes "success"
  ∨ attr_is attributes "status" "failed"
  ∨ attr_truthy attributes "error".

(** ** Sample inputs *)

Definition sample_env : environ := Environ true (λ _, Some "@1").

(** Pane [%3] registered twice, once pending and once under ["abc"], and
    pane [%4] registered later under ["xyz"]. *)
Definition sample_receiver : receiver :=
  final (register_pane "%4" (Some "xyz") 700
    (final (register_pane "%3" (Some "abc") 20
      (final (register_pane "%3" None 10 (init 0)))))).

(** Pane [%1] registered and resolved by a record without conversation id,
    then pane [%2] registered. *)
Definition second_pane_receiver : receiver :=
  final (register_pane "%2" None 30
    (final (get_pane_for_conversation (VStr "")
      (final (register_pane "%1" None 10 (init 0)))))).

(** Pane [%4] registered under ["xyz"], then pane [%3] registered without
    a conversation id. *)
Definition pending_receiver : receiver :=
  final (register_pane "%3" None 10
    (final (register_pane "%4" (Some "xyz") 5 (init 0)))).

(** Pane [%3] registered under ["abc"] at time 700 by a receiver started at
    time 0. *)
Definition active_receiver : receiver :=
  final (register_pane "%3" (Some "abc") 700 (init 0)).

(** A pending decision for the tool ["edit"] whose [tool_name] is empty. *)
Definition empty_tool_name_attributes : gmap string value :=
  <["status" := VStr "pending"]>
    (<["tool_name" := VStr ""]> (<["tool" := VStr "edit"]> ∅)).

(** A tool result that carries [error = false]. *)
Definition error_false_attributes : gmap string value :=
  <["tool" := VStr "run"]> (<["error" := VBool false]> ∅).

(** A record of an event the classifier has no branch for, from a
    conversation bound to a pane. *)
Definition unknown_event_record : otlp_record :=
  OtlpRecord None
    [KeyValue (Some "event.name") (AnyValue (Some "some.unknown.event") None None);
     KeyValue (Some "conversation_id") (AnyValue (Some "abc") None None)].

(** The record of the end-to-end scenario: a conversation start of model
    ["gpt-5"] in conversation ["abc"]. *)
Definition conversation_start_record : otlp_record :=
  OtlpRecord None
    [KeyValue (Some "event.name")
       (AnyValue (Some "codex.conversation_starts") None None);
     KeyValue (Some "model") (AnyValue (Some "gpt-5") None None);
     KeyValue (Some "conversation_id") (AnyValue (Some "abc") None None)].

(** ** The request handler *)

(** What [json.loads(body) if body else {}] makes of a request body.
    [Malformed]: it raises [json.JSONDecodeError].  [Undecodable e]: it
    raises another exception [e] ([UnicodeDecodeError] for bytes that are no
    UTF-8, [RecursionError] for nesting too deep).  [NotObject]: the JSON
    value is not an object, so it has no [.get].  [Json]: a JSON object, by
    the fields the handlers read: ["pane_id"], ["conversation_id"] (absent
    or a string) and the OTLP lists; the empty body gives the object without
    fields. *)
Inductive request_body : Type :=
  | Malformed
  | Undecodable (e : exn)
  | NotObject
  | Json (pane : option string) (conversation : option string)
         (data : otlp_data).

(** The JSON object of a response. *)
Inductive reply : Type :=
  | StatusOk
  | Registered (mapping_key : string)
  | Unregistered
  | HealthReport (count : nat) (idle_seconds : Z)
  | ErrorMessage (message : string)
  | ErrorRaised (e : exn).

(** A response: its status code and its JSON object. *)
Abbreviation response := (nat * reply)%type.

(** [except Exception as e: self._send_response(500, ...)]. *)
Definition answer_500 (m : M response) : M response :=
  λ st, match m st with
        | Returns r st' => Returns r st'
        | Raises e st' => Returns (500%nat, ErrorRaised e) st'
        end.

(** [not pane_id] for the field of the body. *)
Definition missing (field : option string) : bool :=
  match field with
  | Some s => negb (truthy (VStr s))
  | None => true
  end.

Definition otlp_paths : list string := ["/v1/logs"; "/v1/traces"; "/"].

(** [json.loads] of the body inside the [try] of [do_POST]: a
    [JSONDecodeError] is answered with status 400, any other exception
    leaves through [except Exception]; [k] is what the handler does with the
    decoded value, [None] when it is no object. *)
Definition with_decoded (body : request_body)
    (k : option (option string * option string * otlp_data) → M response)
    : M response :=
  match body with
  | Malformed => mret (400%nat, ErrorMessage "invalid JSON")
  | Undecodable e => raise e
  | NotObject => k None
  | Json pane conversation data => k (Some (pane, conversation, data))
  end.

(** [OTELRequestHandler.do_POST].  On a value that is no object
    [process_otel_data] raises inside its own [try], after it has recorded
    the activity; the other two handlers raise [AttributeError] at
    [data.get]. *)
Definition do_POST (env : environ) (now : Z) (path : string)
    (body : request_body) : M response :=
  answer_500
    (if bool_decide (path ∈ otlp_paths) then
       with_decoded body (λ decoded,
         match decoded with
         | None => touch_activity now
         | Some (_, _, data) => process_otel_data env now data
         end;;
         mret (200%nat, StatusOk))
     else if String.eqb path "/register" then
       with_decoded body (λ decoded,
         match decoded with
         | None => raise AttributeError
         | Some (pane, conversation, _) =>
             if missing pane
             then mret (400%nat, ErrorMessage "pane_id required")
             else
               mapping_key ← register_pane (default "" pane) conversation now;
               mret (200%nat, Registered mapping_key)
         end)
     else if String.eqb path "/unregister" then
       with_decoded body (λ decoded,
         match decoded with
         | None => raise AttributeError
         | Some (pane, _, _) =>
             if missing pane
             then mret (400%nat, ErrorMessage "pane_id required")
             else
               unregister_pane env (default "" pane) now;;
               mret (200%nat, Unregistered)
         end)
     else mret (200%nat, StatusOk)).

(** [OTELRequestHandler.do_GET]. *)
Definition do_GET (now : Z) (path : string) : M response :=
  if String.eqb path "/health" then
    report ← health now;
    mret (200%nat, HealthReport report.1 report.2)
  else mret (404%nat, ErrorMessage "not found").

(** What happens to a running server: a request arrives or the idle
    checker wakes up. *)
Inductive server_event : Type :=
  | Post (path : string) (body : request_body) (now : Z)
  | Get (path : string) (now : Z)
  | Tick (now : Z).

Definition run_event (env : environ) (ev : server_event) (st : receiver)
    : receiver :=
  match ev with
  | Post path body now => final (do_POST env now path body st)
  | Get path now => final (do_GET now path st)
  | Tick now => final (idle_tick now st)
  end.

(** The receiver after a history of events. *)
Definition run_events (env : environ) (events : list server_event)
    (st : receiver) : receiver :=
  foldl (λ st ev, run_event env ev st) st events.

(** ** Vocabulary of the further properties *)

(** The first pending binding in iteration order. *)
Definition first_pending (d : table) : option (key * mapping) :=
  List.find is_pending d.

(** What the attribute loop makes of one attribute: the exception it
    raises, or what it stores, if anything. *)
Definition attribute_value (attr : key_value) : exn + option value :=
  let v := kv_value attr in
  match stringValue v, intValue v, boolValue v with
  | Some s, _, _ => inr (Some (VStr s))
  | None, Some (IntOf z), _ => inr (Some (VInt z))
  | None, Some (IntRaises e), _ => inl e
  | None, None, Some b => inr (Some (VBool b))
  | None, None, None => inr None
  end.

(** The attribute makes [int(...)] raise [e]. *)
Definition raises (attr : key_value) (e : exn) : Prop :=
  stringValue (kv_value attr) = None
  ∧ intValue (kv_value attr) = Some (IntRaises e).

(** The attribute makes [int(...)] raise. *)
Definition raises_on (attr : key_value) : Prop := ∃ e, raises attr e.

(** The attributes [_map_event_to_state] reads. *)
Definition classifier_keys : list string :=
  ["model"; "tool_name"; "tool"; "status"; "needs_approval"; "success";
   "error"].

(** Two receivers agree on the table and the state directory. *)
Definition same_bindings_and_files (st1 st2 : receiver) : Prop :=
  mappings st1 = mappings st2 ∧ state_dir st1 = state_dir st2.

(** A record with a malformed integer attribute. *)
Definition bad_int_record : otlp_record :=
  OtlpRecord (Some "codex.response")
    [KeyValue (Some "tokens") (AnyValue None (Some (IntRaises ValueError)) None)].

(** A response event of conversation ["abc"]. *)
Definition response_record : otlp_record :=
  OtlpRecord None
    [KeyValue (Some "event.name") (AnyValue (Some "codex.response") None None);
     KeyValue (Some "conversation_id") (AnyValue (Some "abc") None None)].

(** A record of conversation 5, an integer. *)
Definition integer_conversation_record : otlp_record :=
  OtlpRecord None
    [KeyValue (Some "event.name") (AnyValue (Some "codex.response") None None);
     KeyValue (Some "conversation_id") (AnyValue None (Some (IntOf 5)) None)].

(** Pane [%1] is registered, a record of the integer conversation 5 is
    ingested, then pane [%2] is registered. *)
Definition numeric_key_receiver : receiver :=
  run_events sample_env
    [Post "/register" (Json (Some "%1") None (OtlpData [] [])) 10;
     Post "/v1/logs"
          (Json None None (OtlpData [[[integer_conversation_record]]] [])) 15;
     Post "/register" (Json (Some "%2") None (OtlpData [] [])) 20]
    (init 0).

(** The receiver with another state directory and refresh count. *)
Definition with_outputs (fs : gmap string state_file) (n : nat)
    (st : receiver) : receiver :=
  Receiver (mappings st) (last_activity st) fs n (shutdown_requested st).

(** The state file [_write_state] writes. *)
Definition written_file (env : environ) (now : Z) (pane : string)
    (s : status) (session : value) (message : string) : state_file :=
  StateFile s now session (default "" (env_window_id env pane)) message.

(** The key is a string that starts with [pending_]. *)
Definition pending_named (k : key) : bool :=
  match k with
  | KStr s => String.prefix "pending_" s
  | KNum _ => false
  end.

(** Pane [%5] registered under the conversation id ["pending_job"]. *)
Definition named_pending_receiver : receiver :=
  final (register_pane "%5" (Some "pending_job") 10 (init 0)).

(** A response event of conversation ["xyz"]. *)
Definition other_conversation_record : otlp_record :=
  OtlpRecord None
    [KeyValue (Some "event.name") (AnyValue (Some "codex.response") None None);
     KeyValue (Some "conversation_id") (AnyValue (Some "xyz") None None)].





(** * Properties *)

Local Open Scope list_scope.
Local Open Scope Z_scope.

(** ** The table as a dictionary *)

Section dict.
Implicit Types (d : table) (k : key) (v : mapping).

Lemma dict_get_None k d : dict_get k d = None ↔ k ∉ keys d.
Proof.
  induction d as [|[k' v'] d IH]; simpl.
  - split; [intros _; apply not_elem_of_nil | done].
  - destruct (decide (k' = k)) as [->|Hne].
    + split; [done | intros H; destruct H; left].
    + rewrite IH, not_elem_of_cons. split; [intros ?; split; [congruence | done] | by intros [_ ?]].
Qed.

Lemma dict_get_Some_elem k v d : dict_get k d = Some v → (k, v) ∈ d.
Proof.
  induction d as [|[k' v'] d IH]; simpl; [done |].
  destruct (decide (k' = k)) as [->|Hne].
  - intros [= ->]. left.
  - intros H. right. auto.
Qed.

Lemma dict_get_elem k v d : keys_unique d → (k, v) ∈ d → dict_get k d = Some v.
Proof.
  unfold keys_unique, keys.
  induction d as [|[k' v'] d IH]; simpl; intros Hnd Hin.
  - by apply elem_of_nil in Hin.
  - apply NoDup_cons in Hnd as [Hk' Hnd].
    apply elem_of_cons in Hin as [[= <- <-]|Hin].
    + by rewrite decide_True.
    + rewrite decide_False; [auto |].
      intros ->. apply Hk'. by apply (list_elem_of_fmap_2 fst) in Hin.
Qed.

Lemma dict_get_set_eq k v d : dict_get k (dict_set k v d) = Some v.
Proof.
  induction d as [|[k' v'] d IH]; simpl.
  - by rewrite decide_True.
  - destruct (decide (k' = k)) as [->|Hne]; simpl.
    + by rewrite decide_True.
    + by rewrite decide_False.
Qed.

Lemma dict_get_set_ne k k' v d :
  k ≠ k' → dict_get k' (dict_set k v d) = dict_get k' d.
Proof.
  intros Hne. induction d as [|[k0 v0] d IH]; simpl.
  - by rewrite decide_False.
  - destruct (decide (k0 = k)) as [->|Hne0]; simpl.
    + by rewrite !decide_False.
    + by rewrite IH.
Qed.

Lemma keys_dict_set k v d :
  keys (dict_set k v d)
  = if decide (k ∈ keys d) then keys d else keys d ++ [k].
Proof.
  unfold keys. induction d as [|[k0 v0] d IH]; [done |].
  cbn [dict_set]. destruct (decide (k0 = k)) as [->|Hne].
  - rewrite decide_True; [done | left].
  - rewrite fmap_cons, IH. cbn [fst fmap list_fmap].
    destruct (decide (k ∈ d.*1)) as [Hin|Hnin].
    + rewrite decide_True; [done | by right].
    + rewrite decide_False; [done |].
      rewrite not_elem_of_cons. split; [congruence | done].
Qed.

Lemma keys_unique_set k v d : keys_unique d → keys_unique (dict_set k v d).
Proof.
  unfold keys_unique. rewrite keys_dict_set. intros Hnd.
  case_decide; [done |].
  apply NoDup_app. split_and!; [done | | apply NoDup_singleton].
  intros x Hx ->%list_elem_of_singleton. done.
Qed.

Lemma keys_filter_sublist (P : key * mapping → Prop)
    `{!∀ x, Decision (P x)} d :
  keys (filter P d) `sublist_of` keys d.
Proof. unfold keys. apply fmap_sublist, sublist_filter; apply _. Qed.

Lemma keys_unique_filter (P : key * mapping → Prop)
    `{!∀ x, Decision (P x)} d :
  keys_unique d → keys_unique (filter P d).
Proof.
  unfold keys_unique. intros Hnd.
  exact (sublist_NoDup _ _ Hnd (keys_filter_sublist P d)).
Qed.

Lemma keys_unique_remove k d : keys_unique d → keys_unique (dict_remove k d).
Proof. apply keys_unique_filter. Qed.

Lemma dict_get_remove_eq k d : dict_get k (dict_remove k d) = None.
Proof.
  apply dict_get_None. unfold keys, dict_remove.
  intros ([k' v] & -> & Hin)%list_elem_of_fmap.
  apply list_elem_of_filter in Hin as [Hne _]. by apply Hne.
Qed.

Lemma dict_get_remove_ne k k' d :
  k ≠ k' → dict_get k' (dict_remove k d) = dict_get k' d.
Proof.
  intros Hne. unfold dict_remove.
  induction d as [|[k0 v0] d IH]; [done |].
  rewrite (filter_cons (λ kv : key * mapping, kv.1 ≠ k)). simpl.
  destruct (decide (k0 ≠ k)) as [H0|H0]; simpl.
  - destruct (decide (k0 = k')); [done | exact IH].
  - apply dec_stable in H0 as ->. rewrite decide_False by done. exact IH.
Qed.

Lemma filter_ext_elem (P Q : key * mapping → Prop)
    `{!∀ x, Decision (P x), !∀ x, Decision (Q x)} d :
  (∀ x, x ∈ d → P x ↔ Q x) → filter P d = filter Q d.
Proof.
  induction d as [|x d IH]; intros Hext; [done |].
  rewrite (filter_cons P), (filter_cons Q).
  rewrite IH by (intros y Hy; apply Hext; by right).
  pose proof (Hext x (list_elem_of_here _ _)) as Hx.
  destruct (decide (P x)), (decide (Q x)); tauto || done.
Qed.

Lemma filter_all (P : key * mapping → Prop) `{!∀ x, Decision (P x)} d :
  (∀ x, x ∈ d → P x) → filter P d = d.
Proof.
  induction d as [|x d IH]; intros HP; [done |].
  rewrite (filter_cons_True P) by (apply HP; left).
  f_equal. apply IH. intros y Hy. apply HP. by right.
Qed.

Lemma filter_none (P : key * mapping → Prop) `{!∀ x, Decision (P x)} d :
  (∀ x, x ∈ d → ¬ P x) → filter P d = [].
Proof.
  induction d as [|x d IH]; intros HP; [done |].
  rewrite (filter_cons_False P) by (apply HP; left).
  apply IH. intros y Hy. apply HP. by right.
Qed.

(** Filtering by a property of the entry and then deleting the keys
    found is filtering by the negated property. *)
Lemma filter_not_selected (P : key * mapping → Prop)
    `{!∀ x, Decision (P x)} d :
  keys_unique d →
  filter (λ kv, kv.1 ∉ keys (filter P d)) d = filter (λ kv, ¬ P kv) d.
Proof.
  intros Hnd. apply filter_ext_elem. intros [k v] Hin. simpl. split.
  - intros Hk HP. apply Hk. unfold keys.
    apply (list_elem_of_fmap_2 fst (filter P d) (k, v)).
    by apply list_elem_of_filter.
  - intros HnP ([k' v'] & Hk & Hin')%list_elem_of_fmap. simpl in Hk. subst k'.
    apply list_elem_of_filter in Hin' as [HP Hin'].
    apply (dict_get_elem _ _ _ Hnd) in Hin, Hin'. congruence.
Qed.
End dict.

(** ** Running the methods *)

Lemma run_bind {A B} (m : M A) (f : A → M B) (st : receiver) :
  (m ≫= f) st = match m st with
                | Returns a st' => f a st'
                | Raises e st' => Raises e st'
                end.
Proof. reflexivity. Qed.

Lemma set_mappings_id st : set_mappings (mappings st) st = st.
Proof. by destruct st. Qed.

Lemma set_mappings_twice d d' st :
  set_mappings d (set_mappings d' st) = set_mappings d st.
Proof. reflexivity. Qed.

Lemma del_present k st :
  k ∈ keys (mappings st) →
  del k st = Returns tt (set_mappings (dict_remove k (mappings st)) st).
Proof.
  intros Hin. unfold del, dict_del.
  destruct (dict_get k (mappings st)) eqn:Hget; [done |].
  by apply dict_get_None in Hget.
Qed.

Lemma elem_of_keys_remove k k' (d : table) :
  k' ∈ keys (dict_remove k d) ↔ k' ≠ k ∧ k' ∈ keys d.
Proof.
  unfold keys, dict_remove. rewrite !list_elem_of_fmap. split.
  - intros ([k0 v0] & -> & [Hne Hin]%list_elem_of_filter).
    split; [done |]. by exists (k0, v0).
  - intros (Hne & [k0 v0] & -> & Hin). exists (k0, v0).
    split; [done |]. by apply list_elem_of_filter.
Qed.

(** Deleting a list of distinct keys that are all in the table never raises
    and leaves the entries under the other keys. *)
Lemma for_each_del ks st :
  NoDup ks → (∀ k, k ∈ ks → k ∈ keys (mappings st)) →
  for_each ks del st
  = Returns tt (set_mappings (filter (λ kv, kv.1 ∉ ks) (mappings st)) st).
Proof.
  revert st. induction ks as [|k ks IH]; intros st Hnd Hin.
  - simpl. unfold mret, M_ret, ret. f_equal.
    rewrite <- (set_mappings_id st) at 1. f_equal.
    symmetry. apply filter_all. intros ? _. apply not_elem_of_nil.
  - apply NoDup_cons in Hnd as [Hk Hnd].
    cbn [for_each]. rewrite run_bind, del_present by (apply Hin; left).
    rewrite IH; [| done |].
    + rewrite set_mappings_twice. f_equal. f_equal. cbn [mappings set_mappings].
      unfold dict_remove. rewrite list_filter_filter.
      apply list_filter_iff. intros [k0 v0]. simpl.
      rewrite not_elem_of_cons. tauto.
    + intros k' Hk'. cbn [mappings set_mappings].
      apply elem_of_keys_remove. split; [| apply Hin; by right].
      intros ->. done.
Qed.

(** Deleting the keys selected by a property of the entries. *)
Lemma for_each_del_selected (P : key * mapping → Prop)
    `{!∀ x, Decision (P x)} st :
  keys_unique (mappings st) →
  for_each (keys (filter P (mappings st))) del st
  = Returns tt (set_mappings (filter (λ kv, ¬ P kv) (mappings st)) st).
Proof.
  intros Hnd. rewrite for_each_del.
  - by rewrite filter_not_selected.
  - by apply keys_unique_filter.
  - intros k Hk. exact (elem_of_sublist _ _ _ Hk (keys_filter_sublist P _)).
Qed.

(** ** Stale eviction and unregistration *)

Lemma sample_receiver_unique : keys_unique (mappings sample_receiver).
Proof. apply (bool_decide_unpack _). by vm_compute. Qed.

Lemma cleanup_stale_mappings_run now st :
  keys_unique (mappings st) →
  cleanup_stale_mappings now st
  = Returns tt
      (set_mappings
         (filter (λ kv, ¬ now - registered_at kv.2 > STALE_MAPPING_TIMEOUT)
                 (mappings st)) st).
Proof.
  intros Hnd. unfold cleanup_stale_mappings. rewrite run_bind. cbn [gets].
  by rewrite (for_each_del_selected
    (λ kv, now - registered_at kv.2 > STALE_MAPPING_TIMEOUT)).
Qed.

Lemma unregister_pane_run env pane now st :
  keys_unique (mappings st) →
  unregister_pane env pane now st
  = Returns tt
      (Receiver (filter (λ kv, pane_id kv.2 ≠ pane) (mappings st)) now
         (delete (lstrip_percent pane) (state_dir st))
         (if env_TMUX env then S (refresh_calls st) else refresh_calls st)
         (shutdown_requested st)).
Proof.
  intros Hnd. unfold unregister_pane.
  rewrite run_bind. cbn [touch_activity modify].
  rewrite run_bind. cbn [gets mappings set_last_activity].
  rewrite run_bind.
  change (mappings st) with (mappings (set_last_activity now st)).
  rewrite (for_each_del_selected (λ kv, pane_id kv.2 = pane)) by done.
  rewrite run_bind. cbn [_remove_state modify].
  unfold _refresh_tmux. destruct (env_TMUX env); reflexivity.
Qed.

Lemma dict_get_filter (P : key * mapping → Prop) `{!∀ x, Decision (P x)}
    (d : table) k :
  keys_unique d →
  dict_get k (filter P d)
  = match dict_get k d with
    | Some v => if decide (P (k, v)) then Some v else None
    | None => None
    end.
Proof.
  intros Hnd. destruct (dict_get k d) as [v|] eqn:Hget.
  - apply dict_get_Some_elem in Hget. destruct (decide (P (k, v))) as [HP|HP].
    + apply dict_get_elem; [by apply keys_unique_filter |].
      by apply list_elem_of_filter.
    + apply dict_get_None. unfold keys.
      intros ([k' v'] & Hk & [HP' Hin]%list_elem_of_filter)%list_elem_of_fmap.
      cbn [fst] in Hk. subst k'.
      apply (dict_get_elem _ _ _ Hnd) in Hget, Hin. congruence.
  - apply dict_get_None. apply dict_get_None in Hget. intros Hin. apply Hget.
    exact (elem_of_sublist _ _ _ Hin (keys_filter_sublist P d)).
Qed.

(** C5. [cleanup_stale_mappings] at time [now] never raises.  In the
    receiver it leaves, the table holds, in their order and unchanged,
    exactly the bindings whose age [now - registered_at] is at most
    [STALE_MAPPING_TIMEOUT], whatever their key or conversation id: a key
    bound to a strictly older binding is bound no more, every other key is
    bound as before, and a binding whose age equals the timeout is kept.
    Nothing but the table changes. *)
Theorem cleanup_stale_mappings_spec (now : Z) (st : receiver) :
  keys_unique (mappings st) →
  ∃ st',
    cleanup_stale_mappings now st = Returns tt st'
    ∧ mappings st'
      = filter (λ kv, ¬ now - registered_at kv.2 > STALE_MAPPING_TIMEOUT)
               (mappings st)
    ∧ (∀ k v, (k, v) ∈ mappings st' ↔
              (k, v) ∈ mappings st
              ∧ now - registered_at v ≤ STALE_MAPPING_TIMEOUT)
    ∧ (∀ k v, dict_get k (mappings st) = Some v →
              dict_get k (mappings st')
              = if decide (now - registered_at v > STALE_MAPPING_TIMEOUT)
                then None else Some v)
    ∧ (∀ k, dict_get k (mappings st) = None →
            dict_get k (mappings st') = None)
    ∧ (∀ k v, (k, v) ∈ mappings st →
              now - registered_at v = STALE_MAPPING_TIMEOUT →
              (k, v) ∈ mappings st')
    ∧ last_activity st' = last_activity st
    ∧ state_dir st' = state_dir st
    ∧ refresh_calls st' = refresh_calls st
    ∧ shutdown_requested st' = shutdown_requested st.
Proof.
  intros Hnd. eexists. split; [by apply cleanup_stale_mappings_run |].
  cbn [mappings last_activity state_dir refresh_calls shutdown_requested
       set_mappings].
  split_and!; try done.
  - intros k v. rewrite list_elem_of_filter. cbn [snd].
    split; intros [? ?]; split; try done; lia.
  - intros k v Hget.
    rewrite (dict_get_filter
      (λ kv, ¬ now - registered_at kv.2 > STALE_MAPPING_TIMEOUT)) by done.
    rewrite Hget. cbn [snd].
    destruct (decide (now - registered_at v > STALE_MAPPING_TIMEOUT));
      [by rewrite decide_False by tauto | by rewrite decide_True].
  - intros k Hget.
    rewrite (dict_get_filter
      (λ kv, ¬ now - registered_at kv.2 > STALE_MAPPING_TIMEOUT)) by done.
    by rewrite Hget.
  - intros k v Hin Hage. apply list_elem_of_filter. cbn [snd].
    split; [lia | done].
Qed.

Lemma cleanup_stale_mappings_spec_witness :
  mappings (final (cleanup_stale_mappings 620 sample_receiver))
  = [(KStr "abc", Mapping "%3" 20 (Some (VStr "abc")));
     (KStr "xyz", Mapping "%4" 700 (Some (VStr "xyz")))]
  ∧ dict_get (KStr "pending_%3")
             (mappings (final (cleanup_stale_mappings 620 sample_receiver)))
    = None.
Proof.
  destruct (cleanup_stale_mappings_spec 620 sample_receiver)
    as (st' & Hrun & Hmappings & _ & Hget & _).
  { apply (bool_decide_unpack _). by vm_compute. }
  rewrite Hrun. cbn [final]. split.
  - rewrite Hmappings. by vm_compute.
  - by rewrite (Hget (KStr "pending_%3") (Mapping "%3" 10 None) eq_refl).
Defined.

(** C6. [unregister_pane] never raises, even when no binding names the
    pane.  It removes every binding whose [pane_id] is the pane (there may
    be several, under different keys), keeps every other binding unchanged
    and in place, records the activity, deletes the pane's state file and
    asks tmux for a refresh when [$TMUX] is set. *)
Theorem unregister_pane_spec (env : environ) (pane : string) (now : Z)
    (st : receiver) :
  keys_unique (mappings st) →
  let kept := filter (λ kv, pane_id kv.2 ≠ pane) (mappings st) in
  unregister_pane env pane now st
  = Returns tt
      (Receiver kept now
         (delete (lstrip_percent pane) (state_dir st))
         (if env_TMUX env then S (refresh_calls st) else refresh_calls st)
         (shutdown_requested st))
  ∧ (∀ k v, (k, v) ∈ kept ↔ (k, v) ∈ mappings st ∧ pane_id v ≠ pane)
  ∧ (∀ k v, (k, v) ∈ kept → pane_id v ≠ pane).
Proof.
  intros Hnd kept. split_and!.
  - by apply unregister_pane_run.
  - intros k v. unfold kept. rewrite list_elem_of_filter. simpl. tauto.
  - intros k v [? _]%list_elem_of_filter. done.
Qed.

Lemma unregister_pane_spec_witness :
  keys_unique (mappings sample_receiver)
  ∧ unregister_pane sample_env "%3" 800 sample_receiver
    = Returns tt
        (Receiver [(KStr "xyz", Mapping "%4" 700 (Some (VStr "xyz")))]
                  800 ∅ 1 false).
Proof.
  split; [exact sample_receiver_unique |].
  exact (proj1 (unregister_pane_spec sample_env "%3" 800 sample_receiver
                  sample_receiver_unique)).
Defined.

(** ** Adoption of a pending binding *)

Lemma prefix_app (p s : string) : String.prefix p (p ++ s)%string = true.
Proof.
  induction p as [|c p IH]; simpl; [by destruct s |].
  by destruct (ascii_dec c c).
Qed.

Lemma pending_key_prefix pane : String.prefix "pending_" (pending_key pane) = true.
Proof. apply prefix_app. Qed.

(** The scan skips string-keyed bindings that are not pending and adopts
    the first pending one. *)
Lemma adopt_pending_run conversation (before after : table) s v st :
  Forall (λ kv, is_str kv.1 = true ∧ is_pending kv = false) before →
  is_pending (KStr s, v) = true →
  KStr s ∈ keys (mappings st) →
  adopt_pending conversation (before ++ (KStr s, v) :: after) st
  = Returns (Some (pane_id v))
      (set_mappings
         (dict_remove (KStr s)
            (dict_set (key_of conversation) (adopted conversation v)
                      (mappings st))) st).
Proof.
  intros Hbefore Hpend Hin.
  induction Hbefore as [|[k0 v0] before [Hstr Hnp] _ IH].
  - cbn [app adopt_pending startswith]. rewrite run_bind. cbn [mret M_ret ret].
    unfold is_pending in Hpend. cbn [fst snd] in Hpend. rewrite Hpend.
    rewrite run_bind. cbn [store modify]. rewrite run_bind.
    rewrite del_present; [reflexivity |].
    cbn [mappings set_mappings]. rewrite keys_dict_set.
    case_decide; [done |]. apply elem_of_app. by left.
  - destruct k0 as [s0|z0]; [| done].
    cbn [app adopt_pending startswith]. rewrite run_bind. cbn [mret M_ret ret].
    unfold is_pending in Hnp. cbn [fst snd] in Hnp. rewrite Hnp. exact IH.
Qed.

(** A table with a pending binding splits at its first pending binding. *)
Lemma split_first_pending (d : table) :
  Exists (λ kv, is_pending kv = true) d →
  ∃ before kv after,
    d = before ++ kv :: after
    ∧ Forall (λ kv, is_pending kv = false) before
    ∧ is_pending kv = true.
Proof.
  induction d as [|kv d IH]; intros Hex; [by apply Exists_nil in Hex |].
  destruct (is_pending kv) eqn:Hp.
  - exists [], kv, d. by split_and!.
  - apply Exists_cons in Hex as [Hkv|Hex]; [congruence |].
    destruct (IH Hex) as (before & kv' & after & -> & Hb & Hp').
    exists (kv :: before), kv', after. split_and!; [done | | done].
    by constructor.
Qed.

Lemma filter_key_unique (d : table) k v :
  keys_unique d → dict_get k d = Some v →
  filter (λ kv, kv.1 = k) d = [(k, v)].
Proof.
  unfold keys_unique, keys.
  induction d as [|[k0 v0] d IH]; intros Hnd Hget; [done |].
  rewrite fmap_cons in Hnd. apply NoDup_cons in Hnd as [Hk0 Hnd].
  cbn [dict_get] in Hget. cbn [fst] in Hk0.
  rewrite (filter_cons (λ kv : key * mapping, kv.1 = k)). cbn [fst].
  destruct (decide (k0 = k)) as [->|Hne].
  - injection Hget as ->. f_equal.
    apply (filter_none (λ kv : key * mapping, kv.1 = k)).
    intros [k' v'] Hin Heq. cbn [fst] in Heq. subst k'.
    apply Hk0. exact (list_elem_of_fmap_2 fst _ _ Hin).
  - apply IH; [exact Hnd | exact Hget].
Qed.

Lemma get_pane_adopts conversation (before after : table) s v st :
  mappings st = before ++ (KStr s, v) :: after →
  Forall (λ kv, is_str kv.1 = true ∧ is_pending kv = false) before →
  is_pending (KStr s, v) = true →
  dict_get (key_of conversation) (mappings st) = None →
  get_pane_for_conversation conversation st
  = Returns (Some (pane_id v))
      (set_mappings
         (dict_remove (KStr s)
            (dict_set (key_of conversation) (adopted conversation v)
                      (mappings st))) st).
Proof.
  intros Hd Hbefore Hpend Hmiss.
  unfold get_pane_for_conversation. rewrite run_bind. cbn [gets].
  rewrite Hmiss.
  assert (KStr s ∈ keys (mappings st)) as Hkey.
  { rewrite Hd. unfold keys. rewrite fmap_app, fmap_cons.
    apply elem_of_app. right. left. }
  pose proof (adopt_pending_run conversation before after s v st
                Hbefore Hpend Hkey) as Hrun.
  rewrite <- Hd in Hrun. exact Hrun.
Qed.

(** The table after an adoption. *)
Lemma adoption_table (d : table) kc s new :
  dict_get kc d = None → KStr s ∈ keys d →
  let d' := dict_remove (KStr s) (dict_set kc new d) in
  dict_get kc d' = Some new
  ∧ dict_get (KStr s) d' = None
  ∧ (∀ k, k ≠ kc → k ≠ KStr s → dict_get k d' = dict_get k d)
  ∧ (keys_unique d → keys_unique d').
Proof.
  intros Hmiss Hin d'.
  assert (KStr s ≠ kc) as Hne.
  { intros <-. by apply dict_get_None in Hmiss. }
  unfold d'. split_and!.
  - by rewrite dict_get_remove_ne, dict_get_set_eq.
  - apply dict_get_remove_eq.
  - intros k Hk1 Hk2. by rewrite dict_get_remove_ne, dict_get_set_ne.
  - intros Hnd. by apply keys_unique_remove, keys_unique_set.
Qed.

Lemma str_keys_before (before after : table) kv :
  str_keys (before ++ kv :: after) →
  Forall (λ kv, is_pending kv = false) before →
  Forall (λ kv, is_str kv.1 = true ∧ is_pending kv = false) before.
Proof.
  unfold str_keys. intros [Hs _]%Forall_app Hp.
  rewrite Forall_forall in Hs, Hp |- *. intros x Hx. split; auto.
Qed.

(** What [register_pane] stores when no conversation id is given. *)
Lemma register_pane_pending pane now st :
  register_pane pane None now st
  = Returns (pending_key pane)
      (Receiver (dict_set (KStr (pending_key pane)) (Mapping pane now None)
                          (mappings st))
                now (state_dir st) (refresh_calls st) (shutdown_requested st)).
Proof. reflexivity. Qed.

(** C1.  The lookup fails where the claim promises an adoption.  A server
    registers pane [%1], ingests a record whose conversation id is the
    integer 5 (which adopts the pending binding under the key 5) and
    registers pane [%2].  Now the table holds one pending binding, the one
    [register_pane "%2" None] stored, and nothing under ["abc"]; yet
    [get_pane_for_conversation "abc"] returns no pane and adopts nothing: it
    raises [AttributeError] at the key 5, which has no [startswith]. *)
Lemma resolve_raises_behind_numeric_key :
  let st := numeric_key_receiver in
  keys_unique (mappings st)
  ∧ dict_get (KStr (pending_key "%2")) (mappings st)
    = Some (Mapping "%2" 20 None)
  ∧ Forall (λ kv, is_pending kv = true → kv.1 = KStr (pending_key "%2"))
           (mappings st)
  ∧ dict_get (KStr "abc") (mappings st) = None
  ∧ get_pane_for_conversation (VStr "abc") st = Raises AttributeError st.
Proof.
  split_and!; try by vm_compute.
  - apply (bool_decide_unpack _). by vm_compute.
  - apply (bool_decide_unpack _). by vm_compute.
Qed.

(** X28. Let the table (string keys, each once) hold under [pending_P] the
    binding [register_pane P None] stored at time [t], let that be its only
    pending binding, and let no binding be keyed by [C].  Then
    [get_pane_for_conversation C] returns [P]; afterwards the bindings keyed
    by [C] are exactly one, with pane [P], the registration time [t] and
    conversation id [C]; the key [pending_P] is gone; every other key is
    bound as before. *)
Theorem resolve_adopts_registered_pane (P C : string) (t : Z) (st : receiver) :
  keys_unique (mappings st) →
  str_keys (mappings st) →
  dict_get (KStr (pending_key P)) (mappings st) = Some (Mapping P t None) →
  Forall (λ kv, is_pending kv = true → kv.1 = KStr (pending_key P))
         (mappings st) →
  dict_get (KStr C) (mappings st) = None →
  ∃ d',
    get_pane_for_conversation (VStr C) st
    = Returns (Some P) (set_mappings d' st)
    ∧ filter (λ kv, kv.1 = KStr C) d'
      = [(KStr C, Mapping P t (Some (VStr C)))]
    ∧ dict_get (KStr (pending_key P)) d' = None
    ∧ (∀ k, k ≠ KStr C → k ≠ KStr (pending_key P) →
            dict_get k d' = dict_get k (mappings st)).
Proof.
  intros Hnd Hstr Hget Honly Hmiss.
  pose proof (dict_get_Some_elem _ _ _ Hget) as Hin.
  destruct (split_first_pending (mappings st))
    as (before & [k v] & after & Hd & Hbefore & Hpend).
  { apply Exists_exists. eexists; split; [exact Hin |].
    unfold is_pending. cbn [fst snd conversation_id truthy_opt].
    by rewrite pending_key_prefix. }
  assert ((k, v) ∈ mappings st) as Hkv.
  { rewrite Hd. apply elem_of_app. right. left. }
  assert (k = KStr (pending_key P)) as ->.
  { rewrite Forall_forall in Honly. by apply (Honly _ Hkv). }
  assert (v = Mapping P t None) as ->.
  { apply (dict_get_elem _ _ _ Hnd) in Hkv. congruence. }
  assert (KStr (pending_key P) ∈ keys (mappings st)) as Hkey.
  { exact (list_elem_of_fmap_2 fst _ _ Hin). }
  destruct (adoption_table (mappings st) (KStr C) (pending_key P)
              (adopted (VStr C) (Mapping P t None)) Hmiss Hkey)
    as (Hc & Hp & Hother & Huniq).
  eexists. split_and!.
  - apply (get_pane_adopts (VStr C) before after _ _ st Hd); [| done | done].
    rewrite Hd in Hstr. by eapply str_keys_before.
  - apply filter_key_unique; [by apply Huniq | exact Hc].
  - exact Hp.
  - exact Hother.
Qed.

Lemma resolve_adopts_registered_pane_witness :
  ∃ d',
    get_pane_for_conversation (VStr "abc") pending_receiver
    = Returns (Some "%3") (set_mappings d' pending_receiver)
    ∧ filter (λ kv, kv.1 = KStr "abc") d'
      = [(KStr "abc", Mapping "%3" 10 (Some (VStr "abc")))]
    ∧ dict_get (KStr (pending_key "%3")) d' = None
    ∧ (∀ k, k ≠ KStr "abc" → k ≠ KStr (pending_key "%3") →
            dict_get k d' = dict_get k (mappings pending_receiver)).
Proof.
  apply (resolve_adopts_registered_pane "%3" "abc" 10 pending_receiver).
  - apply (bool_decide_unpack _). by vm_compute.
  - apply (bool_decide_unpack _). by vm_compute.
  - reflexivity.
  - apply (bool_decide_unpack _). by vm_compute.
  - reflexivity.
Defined.

(** C10, as stated, fails: once a binding is keyed by the empty string, a
    lookup with the empty conversation id answers with that binding's pane
    and leaves a pending binding registered later where it is.  It fails as
    well behind a key that is no string: there the lookup raises
    [AttributeError] and the pending binding stays. *)
Lemma resolve_empty_id_keeps_pending :
  let kv := (KStr "pending_%2", Mapping "%2" 30 None) in
  let kv' := (KStr "pending_%2", Mapping "%2" 20 None) in
  (kv ∈ mappings second_pane_receiver
   ∧ is_pending kv = true
   ∧ get_pane_for_conversation (VStr "") second_pane_receiver
     = Returns (Some "%1") second_pane_receiver
   ∧ ¬ adopts_on_empty_id second_pane_receiver kv)
  ∧ (kv' ∈ mappings numeric_key_receiver
     ∧ is_pending kv' = true
     ∧ dict_get (KStr "") (mappings numeric_key_receiver) = None
     ∧ get_pane_for_conversation (VStr "") numeric_key_receiver
       = Raises AttributeError numeric_key_receiver
     ∧ ¬ adopts_on_empty_id numeric_key_receiver kv').
Proof.
  split; split_and!.
  - apply (bool_decide_unpack _). by vm_compute.
  - reflexivity.
  - reflexivity.
  - intros (st' & Hrun & _). vm_compute in Hrun. discriminate Hrun.
  - apply (bool_decide_unpack _). by vm_compute.
  - reflexivity.
  - by vm_compute.
  - by vm_compute.
  - intros (st' & Hrun & _). vm_compute in Hrun. discriminate Hrun.
Qed.

(** C10. When every key of the table is a string and the table holds a
    pending binding and no binding keyed by the empty string,
    [get_pane_for_conversation ""]
    adopts the first pending binding in iteration order: it returns that
    binding's pane, deletes its key and binds the empty string to its pane
    and registration time. *)
Theorem resolve_empty_id_adopts (st : receiver) :
  str_keys (mappings st) →
  dict_get (KStr "") (mappings st) = None →
  Exists (λ kv, is_pending kv = true) (mappings st) →
  ∃ before k v after d',
    mappings st = before ++ (k, v) :: after
    ∧ Forall (λ kv, is_pending kv = false) before
    ∧ is_pending (k, v) = true
    ∧ get_pane_for_conversation (VStr "") st
      = Returns (Some (pane_id v)) (set_mappings d' st)
    ∧ dict_get k d' = None
    ∧ dict_get (KStr "") d'
      = Some (Mapping (pane_id v) (registered_at v) (Some (VStr ""))).
Proof.
  intros Hstr Hmiss Hex.
  destruct (split_first_pending _ Hex)
    as (before & [k v] & after & Hd & Hbefore & Hpend).
  destruct k as [s|z]; [| done].
  assert (KStr s ∈ keys (mappings st)) as Hkey.
  { rewrite Hd. unfold keys. rewrite fmap_app, fmap_cons.
    apply elem_of_app. right. left. }
  destruct (adoption_table (mappings st) (KStr "") s
              (adopted (VStr "") v) Hmiss Hkey) as (Hc & Hp & _ & _).
  exists before, (KStr s), v, after. eexists. split_and!; try done.
  apply (get_pane_adopts (VStr "") before after s v st Hd); [| done | done].
  rewrite Hd in Hstr. by eapply str_keys_before.
Qed.

Lemma resolve_empty_id_adopts_witness :
  ∃ before k v after d',
    mappings pending_receiver = before ++ (k, v) :: after
    ∧ Forall (λ kv, is_pending kv = false) before
    ∧ is_pending (k, v) = true
    ∧ get_pane_for_conversation (VStr "") pending_receiver
      = Returns (Some (pane_id v)) (set_mappings d' pending_receiver)
    ∧ dict_get k d' = None
    ∧ dict_get (KStr "") d'
      = Some (Mapping (pane_id v) (registered_at v) (Some (VStr ""))).
Proof.
  apply (resolve_empty_id_adopts pending_receiver).
  - apply (bool_decide_unpack _). by vm_compute.
  - reflexivity.
  - apply (bool_decide_unpack _). by vm_compute.
Defined.

(** ** Pending bindings of one pane *)

Lemma elem_of_dict_set (d : table) k v kv :
  kv ∈ dict_set k v d → kv = (k, v) ∨ kv ∈ d.
Proof.
  induction d as [|[k0 v0] d IH]; cbn [dict_set].
  - intros ->%list_elem_of_singleton. by left.
  - destruct (decide (k0 = k)) as [->|Hne].
    + intros [->|Hin]%elem_of_cons; [by left | right; by right].
    + intros [->|Hin]%elem_of_cons; [right; left |].
      destruct (IH Hin) as [->|Hin']; [by left | right; by right].
Qed.

Lemma register_pane_run pane conversation now st :
  register_pane pane conversation now st
  = Returns (mapping_key_of pane conversation)
      (Receiver
         (dict_set (KStr (mapping_key_of pane conversation))
                   (Mapping pane now (VStr <$> conversation)) (mappings st))
         now (state_dir st) (refresh_calls st) (shutdown_requested st)).
Proof. reflexivity. Qed.

(** A binding stored by [register_pane] that is pending has the key of its
    pane. *)
Lemma registered_pending_key pane conversation now :
  is_pending (KStr (mapping_key_of pane conversation),
              Mapping pane now (VStr <$> conversation)) = true →
  mapping_key_of pane conversation = pending_key pane.
Proof.
  unfold is_pending, mapping_key_of. cbn [fst snd conversation_id].
  destruct conversation as [c|]; [| done]. cbn [fmap option_fmap option_map truthy_opt].
  destruct (truthy (VStr c)); [| done].
  rewrite andb_false_r. done.
Qed.

Lemma pending_keyed_set (d : table) k v :
  pending_keyed d →
  (is_pending (k, v) = true → k = KStr (pending_key (pane_id v))) →
  pending_keyed (dict_set k v d).
Proof.
  unfold pending_keyed. rewrite !Forall_forall. intros Hd Hnew kv Hin.
  apply elem_of_dict_set in Hin as [->|Hin]; [exact Hnew | by apply Hd].
Qed.

Lemma register_pane_invariant pane conversation now st :
  keys_unique (mappings st) → pending_keyed (mappings st) →
  let st' := final (register_pane pane conversation now st) in
  keys_unique (mappings st') ∧ pending_keyed (mappings st').
Proof.
  intros Hnd Hpk. rewrite register_pane_run. cbn [final mappings]. split.
  - by apply keys_unique_set.
  - apply pending_keyed_set; [done |]. cbn [pane_id].
    by intros ->%registered_pending_key.
Qed.

Lemma register_seq_run pane regs st :
  keys_unique (mappings st) → pending_keyed (mappings st) →
  ∃ st', register_seq pane regs st = Returns tt st'
         ∧ keys_unique (mappings st') ∧ pending_keyed (mappings st').
Proof.
  revert st. induction regs as [|[c t] regs IH]; intros st Hnd Hpk.
  - by exists st.
  - destruct (register_pane_invariant pane c t st Hnd Hpk) as [Hnd' Hpk'].
    unfold register_seq. cbn [for_each]. rewrite !run_bind.
    cbn [fst snd]. rewrite register_pane_run in *. cbn [final] in *.
    apply (IH _ Hnd' Hpk').
Qed.

Lemma filter_key_length (d : table) k :
  keys_unique d → (length (filter (λ kv, kv.1 = k) d) ≤ 1)%nat.
Proof.
  intros Hnd. destruct (dict_get k d) as [v|] eqn:Hget.
  - by rewrite (filter_key_unique d k v).
  - rewrite (filter_none (λ kv : key * mapping, kv.1 = k)); [simpl; lia |].
    intros [k' v'] Hin Heq. cbn [fst] in Heq. subst k'.
    apply dict_get_None in Hget. apply Hget.
    exact (list_elem_of_fmap_2 fst _ _ Hin).
Qed.

(** In a table whose pending bindings are keyed by their pane, a pane has
    at most one pending binding. *)
Lemma pending_of_at_most_one pane (d : table) :
  keys_unique d → pending_keyed d →
  (length (pending_of pane d) ≤ 1)%nat
  ∧ Forall (λ kv, kv.1 = KStr (pending_key pane)) (pending_of pane d).
Proof.
  intros Hnd Hpk. unfold pending_keyed in Hpk. rewrite Forall_forall in Hpk.
  assert (pending_of pane d
          = filter (λ kv, is_pending kv = true ∧ pane_id kv.2 = pane)
                   (filter (λ kv, kv.1 = KStr (pending_key pane)) d)) as Heq.
  { unfold pending_of. rewrite list_filter_filter.
    apply filter_ext_elem. intros kv Hin. split; [| tauto].
    intros [Hp Hpane]. split_and!; try done.
    rewrite <- Hpane. by apply Hpk. }
  split.
  - rewrite Heq. etrans; [apply length_filter | by apply filter_key_length].
  - apply Forall_forall. intros kv. rewrite Heq.
    intros [_ [Hk _]%list_elem_of_filter]%list_elem_of_filter. done.
Qed.

(** C8, as stated, fails: no sequence of registrations of one pane on a
    fresh receiver leaves two pending bindings for it. *)
Lemma no_two_pending_for_a_pane :
  ¬ ∃ (pane : string) (regs : list (option string * Z)) (t0 : Z),
      (1 < length (pending_of pane
                     (mappings (final (register_seq pane regs (init t0))))))%nat.
Proof.
  intros (pane & regs & t0 & Hlen).
  destruct (register_seq_run pane regs (init t0)) as (st' & Hrun & Hnd & Hpk).
  { apply NoDup_nil_2. }
  { apply Forall_nil_2. }
  rewrite Hrun in Hlen. cbn [final] in Hlen.
  pose proof (proj1 (pending_of_at_most_one pane _ Hnd Hpk)). lia.
Qed.

(** C8. Registrations of one pane never raise, and after any sequence of
    them, with whatever conversation ids, the pane has at most one pending
    binding: a registration without conversation id is stored under
    [pending_<pane>] and overwrites the previous one. *)
Theorem register_seq_one_pending (pane : string)
    (regs : list (option string * Z)) (st : receiver) :
  keys_unique (mappings st) →
  pending_keyed (mappings st) →
  ∃ st',
    register_seq pane regs st = Returns tt st'
    ∧ (length (pending_of pane (mappings st')) ≤ 1)%nat
    ∧ Forall (λ kv, kv.1 = KStr (pending_key pane))
             (pending_of pane (mappings st')).
Proof.
  intros Hnd Hpk.
  destruct (register_seq_run pane regs st Hnd Hpk) as (st' & Hrun & Hnd' & Hpk').
  exists st'. split; [done |]. by apply pending_of_at_most_one.
Qed.

Lemma register_seq_one_pending_witness :
  ∃ st',
    register_seq "%3" [(None, 1); (None, 2); (Some "", 3)] (init 0)
    = Returns tt st'
    ∧ (length (pending_of "%3" (mappings st')) ≤ 1)%nat
    ∧ Forall (λ kv, kv.1 = KStr (pending_key "%3"))
             (pending_of "%3" (mappings st')).
Proof.
  apply (register_seq_one_pending "%3" _ (init 0)).
  - apply (bool_decide_unpack _). by vm_compute.
  - apply (bool_decide_unpack _). by vm_compute.
Defined.

(** ** What a method leaves alone *)

Section preserves.
Context (I : receiver → Prop).

Lemma preserves_ret {A} (a : A) : preserves I (mret a).
Proof. by intros st. Qed.

Lemma preserves_raise {A} e : preserves I (@raise A e).
Proof. by intros st. Qed.

Lemma preserves_gets {A} (f : receiver → A) : preserves I (gets f).
Proof. by intros st. Qed.

Lemma preserves_or_raise {A} (r : exn + A) : preserves I (or_raise r).
Proof. destruct r; by intros st. Qed.

Lemma preserves_modify (f : receiver → receiver) :
  (∀ st, I st → I (f st)) → preserves I (modify f).
Proof. intros Hf st. apply Hf. Qed.

Lemma preserves_bind {A B} (m : M A) (f : A → M B) :
  preserves I m → (∀ a, preserves I (f a)) → preserves I (m ≫= f).
Proof.
  intros Hm Hf st Hst. rewrite run_bind.
  specialize (Hm st Hst). destruct (m st) as [a st'|e st']; cbn [final] in Hm.
  - by apply Hf.
  - done.
Qed.

Lemma preserves_bind_ret {A B} (a : A) (f : A → M B) :
  preserves I (f a) → preserves I (ret a ≫= f).
Proof. intros Hf st Hst. rewrite run_bind. by apply Hf. Qed.

Lemma preserves_try_except (m : M unit) :
  preserves I m → preserves I (try_except m).
Proof.
  intros Hm st Hst. specialize (Hm st Hst). unfold try_except.
  by destruct (m st).
Qed.

Lemma preserves_for_each {A} (xs : list A) (body : A → M unit) :
  (∀ x, preserves I (body x)) → preserves I (for_each xs body).
Proof.
  intros Hbody. induction xs as [|x xs IH]; cbn [for_each].
  - apply preserves_ret.
  - apply preserves_bind; [apply Hbody | intros _; apply IH].
Qed.

Lemma preserves_startswith k p : preserves I (startswith k p).
Proof. destruct k; [apply preserves_ret | apply preserves_raise]. Qed.

(** Methods that only touch the table keep whatever does not mention it. *)
Hypothesis I_table : ∀ d st, I st → I (set_mappings d st).

Lemma preserves_store k v : preserves I (store k v).
Proof. apply preserves_modify. intros st. apply I_table. Qed.

Lemma preserves_del k : preserves I (del k).
Proof.
  intros st Hst. unfold del. destruct (dict_del k (mappings st)); [| done].
  by apply I_table.
Qed.

Lemma preserves_adopt_pending conversation items :
  preserves I (adopt_pending conversation items).
Proof.
  induction items as [|[k v] items IH]; cbn [adopt_pending].
  - apply preserves_ret.
  - apply preserves_bind; [apply preserves_startswith |]. intros b.
    destruct (b && _); [| apply IH].
    apply preserves_bind; [apply preserves_store |]. intros _.
    apply preserves_bind; [apply preserves_del |]. intros _.
    apply preserves_ret.
Qed.

Lemma preserves_get_pane conversation :
  preserves I (get_pane_for_conversation conversation).
Proof.
  intros st Hst. unfold get_pane_for_conversation. rewrite run_bind. cbn [gets].
  destruct (dict_get _ _); [done |]. by apply preserves_adopt_pending.
Qed.

Lemma preserves_any_pending conversation pane items :
  preserves I (any_pending conversation pane items).
Proof.
  induction items as [|[k v] items IH]; cbn [any_pending].
  - apply preserves_ret.
  - apply preserves_bind; [apply preserves_startswith |]. intros b.
    destruct b; [| apply IH].
    apply preserves_bind; [| intros _; apply preserves_ret].
    destruct (truthy conversation); [| apply preserves_ret].
    apply preserves_bind; [apply preserves_store |]. intros _.
    apply preserves_del.
Qed.

Lemma preserves_cleanup now : preserves I (cleanup_stale_mappings now).
Proof.
  intros st Hst. unfold cleanup_stale_mappings. rewrite run_bind. cbn [gets].
  apply preserves_for_each; [apply preserves_del | done].
Qed.

(** Methods that also write state files and refresh tmux keep whatever
    mentions neither the table, the state directory nor the refresh count. *)
Hypothesis I_state_dir : ∀ fs st, I st → I (set_state_dir fs st).
Hypothesis I_refresh : ∀ st, I st → I (count_refresh st).

Lemma preserves_refresh_tmux env : preserves I (_refresh_tmux env).
Proof.
  unfold _refresh_tmux. destruct (env_TMUX env); [| apply preserves_ret].
  apply preserves_modify, I_refresh.
Qed.

Lemma preserves_process_record env now record :
  preserves I (_process_record env now record).
Proof.
  unfold _process_record.
  apply preserves_bind; [apply preserves_or_raise |]. intros attributes.
  destruct (negb _); [apply preserves_ret |].
  apply preserves_bind; [apply preserves_get_pane |]. intros pane.
  apply preserves_bind.
  { destruct (no_pane pane); [| apply preserves_ret].
    apply preserves_bind; [apply preserves_gets |]. intros d.
    apply preserves_any_pending. }
  intros [p|]; [| apply preserves_ret].
  destruct (negb _); [apply preserves_ret |].
  destruct (_map_event_to_state _ _) as [[state|] message];
    [| apply preserves_ret].
  apply preserves_bind; [| intros _; apply preserves_refresh_tmux].
  apply preserves_modify. intros st. apply I_state_dir.
Qed.

Lemma preserves_records env now (records : list (list (list otlp_record))) :
  preserves I
    (for_each records (λ resource,
       for_each resource (λ scope,
         for_each scope (_process_record env now)))).
Proof.
  repeat (apply preserves_for_each; intros ?).
  apply preserves_process_record.
Qed.

Lemma preserves_remove_state pane : preserves I (_remove_state pane).
Proof. apply preserves_modify. intros st. apply I_state_dir. Qed.

End preserves.

(** ** The table invariant *)

Lemma table_ok_init now : table_ok (init now).
Proof. split; [apply NoDup_nil_2 | apply Forall_nil_2]. Qed.

Lemma adopted_not_pending conversation v :
  is_pending (key_of conversation, adopted conversation v) = false.
Proof.
  unfold is_pending. cbn [fst snd adopted conversation_id truthy_opt].
  destruct conversation as [s|z|[|]]; cbn [key_of]; try done.
  cbn [truthy]. destruct s; [done |]. cbn [String.eqb negb].
  by rewrite andb_false_r.
Qed.

Lemma pending_keyed_remove k (d : table) :
  pending_keyed d → pending_keyed (dict_remove k d).
Proof.
  unfold pending_keyed, dict_remove. rewrite !Forall_forall.
  intros Hd kv [_ Hin]%list_elem_of_filter. by apply Hd.
Qed.

Lemma preserves_table_ok_store k v :
  (is_pending (k, v) = true → k = KStr (pending_key (pane_id v))) →
  preserves table_ok (store k v).
Proof.
  intros Hnew st [Hnd Hpk]. split; cbn [store modify final mappings set_mappings].
  - by apply keys_unique_set.
  - by apply pending_keyed_set.
Qed.

Lemma preserves_table_ok_del k : preserves table_ok (del k).
Proof.
  intros st [Hnd Hpk]. unfold del, dict_del.
  destruct (dict_get k (mappings st)); [| done]. split; cbn [final mappings set_mappings].
  - by apply keys_unique_remove.
  - by apply pending_keyed_remove.
Qed.

Lemma preserves_table_ok_adopt conversation v k :
  preserves table_ok
    (store (key_of conversation) (adopted conversation v) ≫= λ _, del k).
Proof.
  apply preserves_bind; [| intros _; apply preserves_table_ok_del].
  apply preserves_table_ok_store. by rewrite adopted_not_pending.
Qed.

Lemma preserves_table_ok_adopt_pending conversation items :
  preserves table_ok (adopt_pending conversation items).
Proof.
  induction items as [|[k v] items IH]; cbn [adopt_pending].
  - apply preserves_ret.
  - apply preserves_bind; [apply preserves_startswith |]. intros b.
    destruct (b && _); [| apply IH].
    apply preserves_bind.
    + apply preserves_table_ok_store.
      by rewrite (adopted_not_pending conversation v).
    + intros _. apply preserves_bind; [apply preserves_table_ok_del |].
      intros _. apply preserves_ret.
Qed.

Lemma preserves_table_ok_get_pane conversation :
  preserves table_ok (get_pane_for_conversation conversation).
Proof.
  intros st Hst. unfold get_pane_for_conversation. rewrite run_bind. cbn [gets].
  destruct (dict_get _ _); [done |]. by apply preserves_table_ok_adopt_pending.
Qed.

Lemma preserves_table_ok_any_pending conversation pane items :
  preserves table_ok (any_pending conversation pane items).
Proof.
  induction items as [|[k v] items IH]; cbn [any_pending].
  - apply preserves_ret.
  - apply preserves_bind; [apply preserves_startswith |]. intros b.
    destruct b; [| apply IH].
    apply preserves_bind; [| intros _; apply preserves_ret].
    destruct (truthy conversation); [| apply preserves_ret].
    apply (preserves_table_ok_adopt conversation v k).
Qed.

Lemma preserves_table_ok_register pane conversation now :
  preserves table_ok (register_pane pane conversation now).
Proof. intros st [Hnd Hpk]. by apply register_pane_invariant. Qed.

Lemma preserves_table_ok_other (f : receiver → receiver) :
  (∀ st, mappings (f st) = mappings st) → preserves table_ok (modify f).
Proof.
  intros Hf. apply preserves_modify. intros st.
  unfold table_ok. by rewrite Hf.
Qed.

Lemma preserves_table_ok_refresh env : preserves table_ok (_refresh_tmux env).
Proof.
  unfold _refresh_tmux. destruct (env_TMUX env); [| apply preserves_ret].
  by apply preserves_table_ok_other.
Qed.

Lemma preserves_table_ok_unregister env pane now :
  preserves table_ok (unregister_pane env pane now).
Proof.
  unfold unregister_pane.
  apply preserves_bind; [by apply preserves_table_ok_other |]. intros _.
  apply preserves_bind; [apply preserves_gets |]. intros d.
  apply preserves_bind.
  { apply preserves_for_each. apply preserves_table_ok_del. }
  intros _. apply preserves_bind; [by apply preserves_table_ok_other |].
  intros _. apply preserves_table_ok_refresh.
Qed.

Lemma preserves_table_ok_cleanup now :
  preserves table_ok (cleanup_stale_mappings now).
Proof.
  unfold cleanup_stale_mappings.
  apply preserves_bind; [apply preserves_gets |]. intros d.
  apply preserves_for_each. apply preserves_table_ok_del.
Qed.

Lemma preserves_table_ok_process_record env now record :
  preserves table_ok (_process_record env now record).
Proof.
  unfold _process_record.
  apply preserves_bind; [apply preserves_or_raise |]. intros attributes.
  destruct (negb _); [apply preserves_ret |].
  apply preserves_bind; [apply preserves_table_ok_get_pane |]. intros pane.
  apply preserves_bind.
  { destruct (no_pane pane); [| apply preserves_ret].
    apply preserves_bind; [apply preserves_gets |]. intros d.
    apply preserves_table_ok_any_pending. }
  intros [p|]; [| apply preserves_ret].
  destruct (negb _); [apply preserves_ret |].
  destruct (_map_event_to_state _ _) as [[state|] message];
    [| apply preserves_ret].
  apply preserves_bind; [by apply preserves_table_ok_other |].
  intros _. apply preserves_table_ok_refresh.
Qed.

Lemma preserves_table_ok_process_otel_data env now data :
  preserves table_ok (process_otel_data env now data).
Proof.
  unfold process_otel_data.
  apply preserves_bind; [by apply preserves_table_ok_other |]. intros _.
  apply preserves_try_except.
  apply preserves_bind; [| intros _];
    repeat (apply preserves_for_each; intros ?);
    apply preserves_table_ok_process_record.
Qed.

(** ** The activity timestamp *)

(** A method that runs after [touch_activity now] and does not set the
    timestamp itself ends with the timestamp [now]. *)
Lemma touched_then {A} now (rest : M A) st :
  preserves (λ st, last_activity st = now) rest →
  last_activity (final ((touch_activity now ≫= λ _, rest) st)) = now.
Proof. intros Hrest. rewrite run_bind. by apply Hrest. Qed.

Lemma register_pane_activity pane conversation now st :
  last_activity (final (register_pane pane conversation now st)) = now.
Proof. by rewrite register_pane_run. Qed.

Lemma unregister_pane_activity env pane now st :
  last_activity (final (unregister_pane env pane now st)) = now.
Proof.
  apply touched_then.
  apply preserves_bind; [apply preserves_gets |]. intros d.
  apply preserves_bind; [apply preserves_for_each; by apply preserves_del |].
  intros _. apply preserves_bind; [by apply preserves_remove_state |].
  intros _. by apply preserves_refresh_tmux.
Qed.

Lemma process_otel_data_activity env now data st :
  last_activity (final (process_otel_data env now data st)) = now.
Proof.
  apply touched_then. apply preserves_try_except.
  apply preserves_bind; [| intros _]; by apply preserves_records.
Qed.

Lemma get_pane_activity conversation st :
  last_activity (final (get_pane_for_conversation conversation st))
  = last_activity st.
Proof.
  by apply (preserves_get_pane (λ st', last_activity st' = last_activity st)).
Qed.

Lemma cleanup_activity now st :
  last_activity (final (cleanup_stale_mappings now st)) = last_activity st.
Proof.
  by apply (preserves_cleanup (λ st', last_activity st' = last_activity st)).
Qed.

Lemma idle_tick_activity now st :
  last_activity (final (idle_tick now st)) = last_activity st.
Proof.
  revert st.
  enough (∀ t, preserves (λ st, last_activity st = t) (idle_tick now)) as H.
  { intros st. by apply H. }
  intros t. unfold idle_tick.
  apply preserves_bind; [by apply preserves_cleanup |]. intros _.
  apply preserves_bind; [apply preserves_gets |]. intros [|].
  - apply preserves_bind; [by apply preserves_modify | intros _; apply preserves_ret].
  - apply preserves_ret.
Qed.

(** C4, as stated, fails: the lookup, the stale eviction and the mapping
    count of the health check leave the activity timestamp at the time of
    the last registration (700), whatever the current time. *)
Lemma lookup_eviction_count_keep_activity :
  last_activity active_receiver = 700
  ∧ last_activity
      (final (get_pane_for_conversation (VStr "abc") active_receiver)) = 700
  ∧ last_activity (final (cleanup_stale_mappings 1000 active_receiver)) = 700
  ∧ health 1000 active_receiver = Returns (1%nat, 300) active_receiver.
Proof. by split_and!. Qed.

(** C4. [register_pane], [unregister_pane] and [process_otel_data] set
    the activity timestamp to the time of the call, whether they return or
    raise.  [get_pane_for_conversation], [cleanup_stale_mappings], the health
    check with its mapping count and a round of the idle checker leave it as
    it is. *)
Theorem activity_timestamp_updates (env : environ) (now : Z) (st : receiver) :
  (∀ pane conversation,
      last_activity (final (register_pane pane conversation now st)) = now)
  ∧ (∀ pane, last_activity (final (unregister_pane env pane now st)) = now)
  ∧ (∀ data, last_activity (final (process_otel_data env now data st)) = now)
  ∧ (∀ conversation,
        last_activity (final (get_pane_for_conversation conversation st))
        = last_activity st)
  ∧ last_activity (final (cleanup_stale_mappings now st)) = last_activity st
  ∧ health now st
    = Returns (length (mappings st), now - last_activity st) st
  ∧ last_activity (final (idle_tick now st)) = last_activity st.
Proof.
  split_and!.
  - intros. apply register_pane_activity.
  - intros. apply unregister_pane_activity.
  - intros. apply process_otel_data_activity.
  - intros. apply get_pane_activity.
  - apply cleanup_activity.
  - reflexivity.
  - apply idle_tick_activity.
Qed.

(** ** The idle checker *)

Lemma idle_tick_run now st :
  keys_unique (mappings st) →
  let idle := bool_decide (now - last_activity st > IDLE_TIMEOUT) in
  idle_tick now st
  = Returns idle
      (Receiver
         (filter (λ kv, ¬ now - registered_at kv.2 > STALE_MAPPING_TIMEOUT)
                 (mappings st))
         (last_activity st) (state_dir st) (refresh_calls st)
         (idle || shutdown_requested st)).
Proof.
  intros Hnd idle. unfold idle_tick.
  rewrite run_bind, cleanup_stale_mappings_run by done.
  rewrite run_bind. cbn [is_idle gets last_activity set_mappings].
  fold idle. by destruct idle.
Qed.

Lemma keeps_alive_recent now st :
  keys_unique (mappings st) →
  now - last_activity st ≤ IDLE_TIMEOUT →
  keeps_alive now st.
Proof.
  intros Hnd Hrecent. unfold keeps_alive.
  rewrite idle_tick_run by done.
  rewrite bool_decide_eq_false_2 by lia. by eexists.
Qed.

(** C9. A round of the idle checker first evicts the stale bindings and
    then leaves the loop, asking the server to shut down, exactly when
    [now - last_activity > IDLE_TIMEOUT]; otherwise the loop goes on with the
    next round.  After [register_pane], [unregister_pane] or
    [process_otel_data] at time [t], a round at a time [now] with
    [now - t ≤ IDLE_TIMEOUT] goes on without asking for shutdown. *)
Theorem idle_checker_spec (now : Z) (st : receiver) :
  table_ok st →
  let idle := bool_decide (now - last_activity st > IDLE_TIMEOUT) in
  let st' :=
    Receiver
      (filter (λ kv, ¬ now - registered_at kv.2 > STALE_MAPPING_TIMEOUT)
              (mappings st))
      (last_activity st) (state_dir st) (refresh_calls st)
      (idle || shutdown_requested st) in
  idle_tick now st = Returns idle st'
  ∧ (idle = true ↔ now - last_activity st > IDLE_TIMEOUT)
  ∧ (∀ later, idle_checker (now :: later) st
              = if idle then Returns tt st' else idle_checker later st')
  ∧ (∀ env t pane conversation data,
        now - t ≤ IDLE_TIMEOUT →
        keeps_alive now (final (register_pane pane conversation t st))
        ∧ keeps_alive now (final (unregister_pane env pane t st))
        ∧ keeps_alive now (final (process_otel_data env t data st))).
Proof.
  intros Hok idle st'. pose proof Hok as [Hnd _].
  pose proof (idle_tick_run now st Hnd) as Hrun. split_and!.
  - exact Hrun.
  - unfold idle. by rewrite bool_decide_eq_true.
  - intros later. cbn [idle_checker]. rewrite run_bind, Hrun.
    fold idle. by destruct idle.
  - intros env t pane conversation data Hrecent. split_and!.
    + apply keeps_alive_recent.
      * by apply (preserves_table_ok_register pane conversation t st).
      * by rewrite register_pane_activity.
    + apply keeps_alive_recent.
      * by apply (preserves_table_ok_unregister env pane t st).
      * by rewrite unregister_pane_activity.
    + apply keeps_alive_recent.
      * by apply (preserves_table_ok_process_otel_data env t data st).
      * by rewrite process_otel_data_activity.
Qed.

Lemma idle_checker_spec_witness :
  idle_tick 1001 active_receiver
  = Returns true
      (Receiver [(KStr "abc", Mapping "%3" 700 (Some (VStr "abc")))]
                700 ∅ 0 true).
Proof.
  refine (proj1 (idle_checker_spec 1001 active_receiver _)).
  split; apply (bool_decide_unpack _); by vm_compute.
Defined.

(** ** The classifier *)

Lemma eq_lit_attr_is attributes key s :
  eq_lit (attr_get attributes key (VStr "")) s = true
  ↔ (attr_is attributes key s ∨ (attributes !! key = None ∧ s = "")).
Proof.
  unfold attr_get, attr_is.
  destruct (attributes !! key) as [[s'|z|b]|]; cbn [eq_lit].
  - rewrite String.eqb_eq. split; [intros ->; by left |].
    intros [[= ->]|[? _]]; done.
  - split; [done | intros [?|[? _]]; done].
  - split; [done | intros [?|[? _]]; done].
  - rewrite String.eqb_eq. split; [intros <-; by right | by intros [?|[_ ->]]].
Qed.

Lemma eq_lit_status attributes s :
  s ≠ "" →
  eq_lit (attr_get attributes "status" (VStr "")) s = true
  ↔ attr_is attributes "status" s.
Proof. intros Hs. rewrite eq_lit_attr_is. split; [by intros [?|[_ ?]] | by left]. Qed.

Lemma truthy_opt_attr attributes key :
  truthy_opt (attributes !! key) = true ↔ attr_truthy attributes key.
Proof.
  unfold attr_truthy. destruct (attributes !! key) as [v|]; cbn [truthy_opt].
  - split; [by exists v | by intros (? & [= <-] & ?)].
  - split; [done | by intros (? & ? & _)].
Qed.

Lemma not_truthy_success attributes :
  negb (truthy (attr_get attributes "success" (VBool true))) = true
  ↔ attr_falsy attributes "success".
Proof.
  unfold attr_falsy, attr_get. rewrite negb_true_iff.
  destruct (attributes !! "success") as [v|].
  - split; [by exists v | by intros (? & [= <-] & ?)].
  - split; [done | by intros (? & ? & _)].
Qed.

Lemma asks_approval_test attributes :
  eq_lit (attr_get attributes "status" (VStr "")) "pending"
  || truthy_opt (attributes !! "needs_approval") = true
  ↔ asks_approval attributes.
Proof.
  unfold asks_approval.
  by rewrite orb_true_iff, eq_lit_status, truthy_opt_attr.
Qed.

Lemma reports_failure_test attributes :
  negb (truthy (attr_get attributes "success" (VBool true)))
  || eq_lit (attr_get attributes "status" (VStr "")) "failed"
  || truthy_opt (attributes !! "error") = true
  ↔ reports_failure attributes.
Proof.
  unfold reports_failure.
  rewrite !orb_true_iff, not_truthy_success, eq_lit_status, truthy_opt_attr by done.
  tauto.
Qed.

Lemma tool_decision_unfold attributes :
  _map_event_to_state (VStr "codex.tool_decision") attributes
  = if eq_lit (attr_get attributes "status" (VStr "")) "pending"
       || truthy_opt (attributes !! "needs_approval")
    then (Some Attention,
          tool_message "Approve? " (tool_of attributes) "Approval needed")
    else if eq_lit (attr_get attributes "status" (VStr "")) "approved"
    then (Some Running,
          tool_message "Approved: " (tool_of attributes) "Tool approved")
    else if eq_lit (attr_get attributes "status" (VStr "")) "denied"
    then (Some Done, tool_message "Denied: " (tool_of attributes) "Tool denied")
    else (None, "").
Proof. reflexivity. Qed.

Lemma tool_result_unfold attributes :
  _map_event_to_state (VStr "codex.tool_result") attributes
  = if negb (truthy (attr_get attributes "success" (VBool true)))
       || eq_lit (attr_get attributes "status" (VStr "")) "failed"
       || truthy_opt (attributes !! "error")
    then (Some Attention,
          tool_message "Failed: " (tool_of attributes) "Tool failed")
    else (Some Running,
          tool_message "Ran: " (tool_of attributes) "Tool completed").
Proof. reflexivity. Qed.

(** C2, as stated, fails: with [status = "pending"], an empty [tool_name]
    and [tool = "edit"], a tool name is present under [tool], yet the message
    is the one for a missing tool name. *)
Lemma empty_tool_name_hides_tool :
  attr_is empty_tool_name_attributes "status" "pending"
  ∧ attr_is empty_tool_name_attributes "tool" "edit"
  ∧ _map_event_to_state (VStr "codex.tool_decision") empty_tool_name_attributes
    = (Some Attention, "Approval needed")
  ∧ ¬ ∃ tool : string,
        _map_event_to_state (VStr "codex.tool_decision")
                            empty_tool_name_attributes
        = (Some Attention, ("Approve? " ++ tool)%string).
Proof.
  split_and!; try by vm_compute.
  intros [tool Htool]. vm_compute in Htool. discriminate Htool.
Qed.

(** C2. For a [codex.tool_decision] event the first matching case
    decides: [status = "pending"] or a truthy [needs_approval] gives
    [attention]; else [status = "approved"] gives [running]; else
    [status = "denied"] gives [done]; else there is no decision and the
    message is empty.  The message names the tool when [tool_of], the
    [tool_name] attribute if that key is there and the [tool] attribute
    otherwise, is truthy, and is the fixed text otherwise. *)
Theorem tool_decision_precedence (attributes : gmap string value) :
  let result := _map_event_to_state (VStr "codex.tool_decision") attributes in
  let tool := tool_of attributes in
  (asks_approval attributes →
     result = (Some Attention,
               if truthy tool then ("Approve? " ++ str tool)%string
               else "Approval needed"))
  ∧ (¬ asks_approval attributes → attr_is attributes "status" "approved" →
     result = (Some Running,
               if truthy tool then ("Approved: " ++ str tool)%string
               else "Tool approved"))
  ∧ (¬ asks_approval attributes → attr_is attributes "status" "denied" →
     result = (Some Done,
               if truthy tool then ("Denied: " ++ str tool)%string
               else "Tool denied"))
  ∧ (¬ asks_approval attributes →
     ¬ attr_is attributes "status" "approved" →
     ¬ attr_is attributes "status" "denied" →
     result = (None, "")).
Proof.
  intros result tool. unfold result. rewrite tool_decision_unfold.
  fold tool. unfold tool_message.
  pose proof (asks_approval_test attributes) as Hask.
  destruct (_ || _).
  { split_and!; [done | | |]; intros Hn; exfalso; apply Hn, Hask; done. }
  assert (¬ asks_approval attributes) as Hno by (intros H%Hask; done).
  split_and!; [done | | |].
  - intros _ H. apply eq_lit_status in H as ->; done.
  - intros _ Hd.
    destruct (eq_lit _ "approved") eqn:Ha.
    + apply eq_lit_status in Ha; [| done].
      unfold attr_is in Ha, Hd. congruence.
    + apply eq_lit_status in Hd as ->; done.
  - intros _ Hna Hnd.
    destruct (eq_lit _ "approved") eqn:Ha.
    { apply eq_lit_status in Ha; done. }
    destruct (eq_lit _ "denied") eqn:Hd; [| done].
    apply eq_lit_status in Hd; done.
Qed.

Lemma tool_decision_precedence_witness :
  _map_event_to_state (VStr "codex.tool_decision") empty_tool_name_attributes
  = (Some Attention, "Approval needed").
Proof.
  refine (proj1 (tool_decision_precedence empty_tool_name_attributes) _).
  left. by vm_compute.
Defined.

(** C3, as stated, fails: a tool result that carries the attribute
    [error = false] has an error attribute present, yet it is classified as
    running. *)
Lemma false_error_is_no_failure :
  error_false_attributes !! "error" = Some (VBool false)
  ∧ _map_event_to_state (VStr "codex.tool_result") error_false_attributes
    = (Some Running, "Ran: run").
Proof. split; by vm_compute. Qed.

(** C3. A [codex.tool_result] event is classified [attention] exactly
    when the [success] attribute is there and falsy ([False], [0] or the
    empty string), or [status = "failed"], or the [error] attribute is there
    and truthy; in every other case it is classified [running].  An absent
    [success] attribute counts as [True].  The message names the tool when
    [tool_of] is truthy and is the fixed text otherwise. *)
Theorem tool_result_outcome (attributes : gmap string value) :
  let result := _map_event_to_state (VStr "codex.tool_result") attributes in
  let tool := tool_of attributes in
  (reports_failure attributes →
     result = (Some Attention,
               if truthy tool then ("Failed: " ++ str tool)%string
               else "Tool failed"))
  ∧ (¬ reports_failure attributes →
     result = (Some Running,
               if truthy tool then ("Ran: " ++ str tool)%string
               else "Tool completed"))
  ∧ (attributes !! "success" = None →
     result = _map_event_to_state (VStr "codex.tool_result")
                (<["success" := VBool true]> attributes)).
Proof.
  intros result tool. unfold result. split_and!.
  - intros Hfail%reports_failure_test.
    rewrite tool_result_unfold, Hfail. done.
  - intros Hok. rewrite tool_result_unfold.
    destruct (_ || _ || _) eqn:Htest; [| done].
    by apply reports_failure_test in Htest.
  - intros Habsent. rewrite !tool_result_unfold.
    unfold tool_of, attr_get.
    rewrite lookup_insert_eq, !lookup_insert_ne, Habsent by done. done.
Qed.

Lemma tool_result_outcome_witness :
  _map_event_to_state (VStr "codex.tool_result")
    (<["success" := VBool false]> (<["tool" := VStr "run"]> ∅))
  = (Some Attention, "Failed: run").
Proof.
  refine (proj1 (tool_result_outcome
                   (<["success" := VBool false]> (<["tool" := VStr "run"]> ∅))) _).
  left. exists (VBool false). by vm_compute.
Defined.

(** ** Events without a branch *)

Lemma unrecognized_no_decision event_name attributes :
  recognized event_name = false →
  _map_event_to_state event_name attributes = (None, "").
Proof.
  intros Hno. destruct event_name as [s|z|b]; [| done | done].
  unfold recognized in Hno. cbn [existsb recognized_events eq_lit] in Hno.
  repeat (apply orb_false_elim in Hno as [? Hno]).
  unfold _map_event_to_state. cbn [eq_lit].
  by repeat match goal with H : String.eqb s _ = false |- _ => rewrite H; clear H end.
Qed.

(** A record whose event has no branch only touches the table. *)
Lemma process_record_unrecognized (I : receiver → Prop) env now record e :
  (∀ d st, I st → I (set_mappings d st)) →
  record_event record = Some e → recognized e = false →
  preserves I (_process_record env now record).
Proof.
  intros I_table Hevent Hno. unfold _process_record, record_event in *.
  destruct (extract_attributes _ _) as [|attributes]; [done |].
  injection Hevent as <-.
  apply (preserves_bind_ret I attributes).
  destruct (negb _); [apply preserves_ret |].
  apply preserves_bind; [by apply preserves_get_pane |]. intros pane.
  apply preserves_bind.
  { destruct (no_pane pane); [| apply preserves_ret].
    apply preserves_bind; [apply preserves_gets |]. intros d.
    by apply preserves_any_pending. }
  intros [p|]; [| apply preserves_ret].
  destruct (negb _); [apply preserves_ret |].
  rewrite unrecognized_no_decision by done. apply preserves_ret.
Qed.

(** C7. For an event name outside the six the classifier has a branch
    for, [_map_event_to_state] gives no decision and the empty message, and
    [_process_record] on a record with that event name writes no state file
    and asks for no refresh: the state directory is as before. *)
Theorem unrecognized_event_ignored (event_name : value) :
  recognized event_name = false →
  (∀ attributes, _map_event_to_state event_name attributes = (None, ""))
  ∧ (∀ env now record st,
        record_event record = Some event_name →
        state_dir (final (_process_record env now record st)) = state_dir st
        ∧ refresh_calls (final (_process_record env now record st))
          = refresh_calls st).
Proof.
  intros Hno. split.
  - intros attributes. by apply unrecognized_no_decision.
  - intros env now record st Hevent.
    by apply (process_record_unrecognized
      (λ st', state_dir st' = state_dir st
              ∧ refresh_calls st' = refresh_calls st) env now record event_name).
Qed.

Lemma unrecognized_event_ignored_witness :
  state_dir (final (_process_record sample_env 900 unknown_event_record
                                    active_receiver))
  = state_dir active_receiver.
Proof.
  exact (proj1 (proj2 (unrecognized_event_ignored
                         (VStr "some.unknown.event") eq_refl)
                 sample_env 900 unknown_event_record active_receiver eq_refl)).
Defined.

(** ** The examples of the specification *)

Example classify_pending_edit :
  _map_event_to_state (VStr "codex.tool_decision")
    (<["status" := VStr "pending"]> (<["tool_name" := VStr "edit"]> ∅))
  = (Some Attention, "Approve? edit").
Proof. reflexivity. Qed.

Example classify_failed_run :
  _map_event_to_state (VStr "codex.tool_result")
    (<["success" := VBool false]> (<["tool" := VStr "run"]> ∅))
  = (Some Attention, "Failed: run").
Proof. reflexivity. Qed.

Example classify_conversation_ends :
  _map_event_to_state (VStr "codex.conversation_ends") ∅
  = (Some Done, "Codex finished").
Proof. reflexivity. Qed.

Example classify_unknown :
  _map_event_to_state (VStr "some.unknown.event") ∅ = (None, "").
Proof. reflexivity. Qed.

(** Registering [%3] without conversation id and ingesting the conversation
    start binds ["abc"] to [%3] and writes the state file of pane [3]. *)
Example end_to_end :
  let st1 := final (register_pane "%3" None 10 (init 0)) in
  let run := _process_record sample_env 20 conversation_start_record st1 in
  register_pane "%3" None 10 (init 0) = Returns "pending_%3" st1
  ∧ run = Returns tt (final run)
  ∧ mappings (final run)
    = [(KStr "abc", Mapping "%3" 10 (Some (VStr "abc")))]
  ∧ state_dir (final run) !! "3"
    = Some (StateFile Running 20 (VStr "abc") "@1" "Codex: gpt-5").
Proof. split_and!; by vm_compute. Qed.

(** * Further properties of the receiver *)

(** ** Lookup *)

Lemma adopt_pending_none conversation (items : table) st :
  Forall (λ kv, is_str kv.1 = true ∧ is_pending kv = false) items →
  adopt_pending conversation items st = Returns None st.
Proof.
  induction 1 as [|[k v] items [Hstr Hnp] _ IH]; [done |].
  destruct k as [s|z]; [| done].
  cbn [adopt_pending startswith]. rewrite run_bind. cbn [mret M_ret ret].
  unfold is_pending in Hnp. cbn [fst snd] in Hnp. by rewrite Hnp.
Qed.

Lemma first_pending_Some (d : table) kv :
  first_pending d = Some kv →
  ∃ before after,
    d = before ++ kv :: after
    ∧ Forall (λ kv, is_pending kv = false) before
    ∧ is_pending kv = true.
Proof.
  unfold first_pending. induction d as [|x d IH]; [done |]. cbn [List.find].
  destruct (is_pending x) eqn:Hx.
  - intros [= ->]. exists [], d. by split_and!.
  - intros (before & after & -> & Hb & Hp)%IH.
    exists (x :: before), after. split_and!; [done | by constructor | done].
Qed.

Lemma first_pending_None (d : table) :
  first_pending d = None → Forall (λ kv, is_pending kv = false) d.
Proof.
  unfold first_pending. induction d as [|x d IH]; [constructor |].
  cbn [List.find]. destruct (is_pending x) eqn:Hx; [done |].
  intros Hd. constructor; auto.
Qed.

Lemma str_keys_all (d : table) :
  str_keys d → Forall (λ kv, is_pending kv = false) d →
  Forall (λ kv, is_str kv.1 = true ∧ is_pending kv = false) d.
Proof.
  unfold str_keys. rewrite !Forall_forall. intros Hs Hp x Hx. split; auto.
Qed.

(** X1. On a table with string keys [get_pane_for_conversation] never
    raises and is this loop-free function: a binding under the conversation
    id answers and nothing changes; otherwise the first pending binding in
    iteration order is moved under the conversation id; otherwise the answer
    is [None] and nothing changes. *)
Theorem get_pane_for_conversation_cases (conversation : value)
    (st : receiver) :
  str_keys (mappings st) →
  get_pane_for_conversation conversation st
  = match dict_get (key_of conversation) (mappings st) with
    | Some m => Returns (Some (pane_id m)) st
    | None =>
        match first_pending (mappings st) with
        | Some (k, v) =>
            Returns (Some (pane_id v))
              (set_mappings
                 (dict_remove k
                    (dict_set (key_of conversation) (adopted conversation v)
                              (mappings st))) st)
        | None => Returns None st
        end
    end.
Proof.
  intros Hstr.
  destruct (dict_get _ _) as [m|] eqn:Hget.
  { unfold get_pane_for_conversation. rewrite run_bind. cbn [gets].
    by rewrite Hget. }
  destruct (first_pending _) as [[k v]|] eqn:Hfirst.
  - apply first_pending_Some in Hfirst
      as (before & after & Hd & Hbefore & Hpend).
    destruct k as [s|z]; [| done].
    apply (get_pane_adopts conversation before after s v st Hd);
      [| done | done].
    rewrite Hd in Hstr. by eapply str_keys_before.
  - apply first_pending_None in Hfirst.
    unfold get_pane_for_conversation. rewrite run_bind. cbn [gets].
    rewrite Hget. by apply adopt_pending_none, str_keys_all.
Qed.

Lemma get_pane_for_conversation_cases_witness :
  get_pane_for_conversation (VStr "new") sample_receiver
  = Returns (Some "%3")
      (set_mappings
         [(KStr "abc", Mapping "%3" 20 (Some (VStr "abc")));
          (KStr "xyz", Mapping "%4" 700 (Some (VStr "xyz")));
          (KStr "new", Mapping "%3" 10 (Some (VStr "new")))]
         sample_receiver).
Proof.
  refine (get_pane_for_conversation_cases (VStr "new") sample_receiver _).
  apply (bool_decide_unpack _). by vm_compute.
Defined.

Lemma get_pane_for_conversation_miss conversation st :
  str_keys (mappings st) →
  dict_get (key_of conversation) (mappings st) = None →
  Forall (λ kv, is_pending kv = false) (mappings st) →
  get_pane_for_conversation conversation st = Returns None st.
Proof.
  intros Hstr Hmiss Hnone.
  unfold get_pane_for_conversation. rewrite run_bind. cbn [gets].
  rewrite Hmiss. by apply adopt_pending_none, str_keys_all.
Qed.

(** What the scan over a snapshot of the table can end in. *)
Lemma adopt_pending_outcome conversation (items : table) st :
  (∀ kv, kv ∈ items → kv.1 ∈ keys (mappings st)) →
  adopt_pending conversation items st = Returns None st
  ∨ adopt_pending conversation items st = Raises AttributeError st
  ∨ ∃ k v,
      (k, v) ∈ items ∧ is_pending (k, v) = true
      ∧ adopt_pending conversation items st
        = Returns (Some (pane_id v))
            (set_mappings
               (dict_remove k
                  (dict_set (key_of conversation) (adopted conversation v)
                            (mappings st))) st).
Proof.
  induction items as [|[k v] items IH]; intros Hin; [by left |].
  destruct k as [s|z]; [| right; by left].
  cbn [adopt_pending startswith]. rewrite run_bind. cbn [mret M_ret ret].
  destruct (String.prefix "pending_" s
            && negb (truthy_opt (conversation_id v))) eqn:Hp.
  - right. right. exists (KStr s), v. split_and!; [left | done |].
    rewrite run_bind. cbn [store modify]. rewrite run_bind.
    rewrite del_present; [done |].
    cbn [mappings set_mappings]. rewrite keys_dict_set.
    pose proof (Hin (KStr s, v) (list_elem_of_here _ _)) as Hk.
    case_decide; [done |]. apply elem_of_app. by left.
  - destruct IH as [H|[H|(k' & v' & Hk' & Hp' & H)]].
    + intros kv Hkv. apply Hin. by right.
    + by left.
    + right. by left.
    + right. right. exists k', v'. split_and!; [by right | done | done].
Qed.

Lemma get_pane_outcome conversation st :
  (∃ m, dict_get (key_of conversation) (mappings st) = Some m
        ∧ get_pane_for_conversation conversation st
          = Returns (Some (pane_id m)) st)
  ∨ (dict_get (key_of conversation) (mappings st) = None
     ∧ (get_pane_for_conversation conversation st = Returns None st
        ∨ get_pane_for_conversation conversation st = Raises AttributeError st
        ∨ ∃ k v,
            (k, v) ∈ mappings st ∧ is_pending (k, v) = true
            ∧ get_pane_for_conversation conversation st
              = Returns (Some (pane_id v))
                  (set_mappings
                     (dict_remove k
                        (dict_set (key_of conversation)
                                  (adopted conversation v) (mappings st)))
                     st))).
Proof.
  unfold get_pane_for_conversation. rewrite run_bind. cbn [gets].
  destruct (dict_get _ _) as [m|] eqn:Hget.
  - left. by exists m.
  - right. split; [done |]. apply adopt_pending_outcome.
    intros kv Hkv. exact (list_elem_of_fmap_2 fst _ _ Hkv).
Qed.

Lemma get_pane_repeat conversation st st' pane :
  get_pane_for_conversation conversation st = Returns (Some pane) st' →
  get_pane_for_conversation conversation st' = Returns (Some pane) st'.
Proof.
  intros Hrun.
  destruct (get_pane_outcome conversation st)
    as [(m & Hget & H)|[Hmiss [H|[H|(k & v & Hin & Hp & H)]]]];
    rewrite H in Hrun; try discriminate Hrun.
  - by injection Hrun as <- <-.
  - injection Hrun as <- <-.
    assert (k ≠ key_of conversation) as Hne.
    { intros ->. apply dict_get_None in Hmiss. apply Hmiss.
      exact (list_elem_of_fmap_2 fst _ _ Hin). }
    unfold get_pane_for_conversation. rewrite run_bind.
    cbn [gets mappings set_mappings].
    by rewrite dict_get_remove_ne, dict_get_set_eq.
Qed.

(** X2. A lookup that answered with a pane answers the same on every
    repetition and changes nothing any more: a pending binding is adopted
    once. *)
Theorem get_pane_for_conversation_idempotent (conversation : value)
    (st st' : receiver) (pane : string) :
  get_pane_for_conversation conversation st = Returns (Some pane) st' →
  get_pane_for_conversation conversation st' = Returns (Some pane) st'.
Proof. apply get_pane_repeat. Qed.

Lemma get_pane_for_conversation_idempotent_witness :
  let st' := final (get_pane_for_conversation (VStr "abc") pending_receiver) in
  get_pane_for_conversation (VStr "abc") st' = Returns (Some "%3") st'.
Proof.
  intros st'.
  apply (get_pane_for_conversation_idempotent (VStr "abc") pending_receiver).
  reflexivity.
Defined.

Lemma dict_set_fresh (d : table) k v :
  k ∉ keys d → dict_set k v d = d ++ [(k, v)].
Proof.
  unfold keys. induction d as [|[k0 v0] d IH]; [done |].
  rewrite fmap_cons, not_elem_of_cons. cbn [fst]. intros [Hne Hnin].
  cbn [dict_set]. rewrite decide_False by done. by rewrite IH.
Qed.

Lemma length_dict_remove (d : table) k :
  keys_unique d → k ∈ keys d → S (length (dict_remove k d)) = length d.
Proof.
  unfold keys_unique, keys, dict_remove.
  induction d as [|[k0 v0] d IH]; intros Hnd Hin; [by apply elem_of_nil in Hin |].
  rewrite fmap_cons in Hnd, Hin. cbn [fst] in Hnd, Hin.
  apply NoDup_cons in Hnd as [Hk0 Hnd].
  rewrite (filter_cons (λ kv : key * mapping, kv.1 ≠ k)). cbn [fst].
  destruct (decide (k0 ≠ k)) as [Hne|Heq].
  - apply elem_of_cons in Hin as [->|Hin]; [done |].
    cbn [length]. by rewrite IH.
  - apply dec_stable in Heq as ->. cbn [length]. f_equal.
    rewrite (filter_all (λ kv : key * mapping, kv.1 ≠ k)); [done |].
    intros [k' v'] Hin' Heq. cbn [fst] in Heq. subst k'. apply Hk0.
    exact (list_elem_of_fmap_2 fst _ _ Hin').
Qed.

(** X3. Whatever a lookup does (answer, adopt, miss or raise), the number
    of bindings stays the same: adoption replaces one binding by one. *)
Theorem get_pane_for_conversation_count (conversation : value)
    (st : receiver) :
  keys_unique (mappings st) →
  length (mappings (final (get_pane_for_conversation conversation st)))
  = length (mappings st).
Proof.
  intros Hnd.
  destruct (get_pane_outcome conversation st)
    as [(m & Hget & H)|[Hmiss [H|[H|(k & v & Hin & Hp & H)]]]];
    rewrite H; try done.
  cbn [final mappings set_mappings].
  apply dict_get_None in Hmiss.
  assert (k ∈ keys (mappings st)) as Hk
    by exact (list_elem_of_fmap_2 fst _ _ Hin).
  apply Nat.succ_inj. rewrite length_dict_remove.
  - rewrite dict_set_fresh by done. rewrite length_app. apply Nat.add_1_r.
  - by apply keys_unique_set.
  - rewrite keys_dict_set. case_decide; [done |]. apply elem_of_app. by left.
Qed.

Lemma get_pane_for_conversation_count_witness :
  length (mappings (final (get_pane_for_conversation (VStr "abc")
                                                     pending_receiver)))
  = length (mappings pending_receiver).
Proof.
  apply (get_pane_for_conversation_count (VStr "abc") pending_receiver).
  apply (bool_decide_unpack _). by vm_compute.
Defined.

(** X4. When no binding is keyed by the conversation id and the scan meets
    a numeric key before any pending binding, the lookup raises
    [AttributeError] and changes nothing; the pending bindings behind that
    key are out of reach. *)
Theorem get_pane_for_conversation_numeric_key (conversation : value)
    (before after : table) (z : Z) (v : mapping) (st : receiver) :
  mappings st = before ++ (KNum z, v) :: after →
  Forall (λ kv, is_str kv.1 = true ∧ is_pending kv = false) before →
  dict_get (key_of conversation) (mappings st) = None →
  get_pane_for_conversation conversation st = Raises AttributeError st.
Proof.
  intros Hd Hbefore Hmiss.
  unfold get_pane_for_conversation. rewrite run_bind. cbn [gets].
  rewrite Hmiss, Hd. clear Hd Hmiss.
  induction Hbefore as [|[k0 v0] before [Hstr Hnp] _ IH]; [done |].
  destruct k0 as [s|z0]; [| done].
  cbn [app adopt_pending startswith]. rewrite run_bind. cbn [mret M_ret ret].
  unfold is_pending in Hnp. cbn [fst snd] in Hnp. by rewrite Hnp.
Qed.

Lemma get_pane_for_conversation_numeric_key_witness :
  mappings numeric_key_receiver
  = [(KNum 5, Mapping "%1" 10 (Some (VInt 5)));
     (KStr "pending_%2", Mapping "%2" 20 None)]
  ∧ get_pane_for_conversation (VStr "abc") numeric_key_receiver
    = Raises AttributeError numeric_key_receiver.
Proof.
  split; [by vm_compute |].
  apply (get_pane_for_conversation_numeric_key (VStr "abc") []
           [(KStr "pending_%2", Mapping "%2" 20 None)] 5
           (Mapping "%1" 10 (Some (VInt 5))) numeric_key_receiver).
  - by vm_compute.
  - constructor.
  - by vm_compute.
Defined.

(** ** Registration, unregistration and eviction together *)

(** X5. Registering a pane under a non-empty conversation id returns that
    id as the key; a lookup of the id then answers the pane and changes
    nothing, and the bindings under all other keys are as before the
    registration. *)
Theorem register_then_lookup (pane c : string) (now : Z) (st : receiver) :
  c ≠ "" →
  let st1 := final (register_pane pane (Some c) now st) in
  register_pane pane (Some c) now st = Returns c st1
  ∧ get_pane_for_conversation (VStr c) st1 = Returns (Some pane) st1
  ∧ (∀ k, k ≠ KStr c → dict_get k (mappings st1) = dict_get k (mappings st)).
Proof.
  intros Hc st1. unfold st1. rewrite register_pane_run. cbn [final].
  assert (mapping_key_of pane (Some c) = c) as ->.
  { unfold mapping_key_of. cbn [truthy].
    destruct (String.eqb_spec c ""); [done | done]. }
  split_and!; [done | |].
  - unfold get_pane_for_conversation. rewrite run_bind.
    cbn [gets mappings key_of]. by rewrite dict_get_set_eq.
  - intros k Hk. cbn [mappings]. by rewrite dict_get_set_ne.
Qed.

Lemma register_then_lookup_witness :
  let st1 := final (register_pane "%7" (Some "conv") 900 sample_receiver) in
  register_pane "%7" (Some "conv") 900 sample_receiver = Returns "conv" st1
  ∧ get_pane_for_conversation (VStr "conv") st1 = Returns (Some "%7") st1
  ∧ (∀ k, k ≠ KStr "conv" →
          dict_get k (mappings st1) = dict_get k (mappings sample_receiver)).
Proof. by apply (register_then_lookup "%7" "conv" 900 sample_receiver). Defined.

Lemma dict_set_twice (d : table) k v1 v2 :
  dict_set k v2 (dict_set k v1 d) = dict_set k v2 d.
Proof.
  induction d as [|[k0 v0] d IH]; cbn [dict_set].
  - by rewrite decide_True.
  - destruct (decide (k0 = k)) as [->|Hne]; cbn [dict_set].
    + by rewrite decide_True.
    + by rewrite decide_False, IH.
Qed.

(** X6. Registering the same pane with the same conversation id again
    leaves the receiver as if only the later registration had happened: the
    binding keeps its place in the table and takes the later time. *)
Theorem register_pane_again (pane : string) (conversation : option string)
    (t1 t2 : Z) (st : receiver) :
  final (register_pane pane conversation t2
           (final (register_pane pane conversation t1 st)))
  = final (register_pane pane conversation t2 st).
Proof.
  rewrite !register_pane_run. cbn [final mappings state_dir refresh_calls
    shutdown_requested]. by rewrite dict_set_twice.
Qed.

Lemma filter_twice (P : key * mapping → Prop) `{!∀ x, Decision (P x)}
    (d : table) :
  filter P (filter P d) = filter P d.
Proof.
  apply filter_all. intros x [HP _]%list_elem_of_filter. done.
Qed.

(** X7. Unregistering a pane a second time changes neither the table nor
    the state directory: after the first call no binding names the pane and
    its state file is gone. *)
Theorem unregister_pane_again (env : environ) (pane : string) (t1 t2 : Z)
    (st : receiver) :
  keys_unique (mappings st) →
  let st1 := final (unregister_pane env pane t1 st) in
  Forall (λ kv, pane_id kv.2 ≠ pane) (mappings st1)
  ∧ state_dir st1 !! lstrip_percent pane = None
  ∧ same_bindings_and_files (final (unregister_pane env pane t2 st1)) st1.
Proof.
  intros Hnd st1. unfold st1.
  rewrite (unregister_pane_run env pane t1 st Hnd). cbn [final].
  rewrite unregister_pane_run
    by (cbn [mappings]; by apply keys_unique_filter).
  cbn [final mappings state_dir]. split_and!.
  - apply Forall_forall. by intros kv [? _]%list_elem_of_filter.
  - apply lookup_delete_eq.
  - split; cbn [mappings state_dir].
    + apply (filter_twice (λ kv, pane_id kv.2 ≠ pane)).
    + apply delete_delete_eq.
Qed.

Lemma unregister_pane_again_witness :
  let st1 := final (unregister_pane sample_env "%3" 800 sample_receiver) in
  Forall (λ kv, pane_id kv.2 ≠ "%3") (mappings st1)
  ∧ state_dir st1 !! lstrip_percent "%3" = None
  ∧ same_bindings_and_files
      (final (unregister_pane sample_env "%3" 900 st1)) st1.
Proof.
  apply (unregister_pane_again sample_env "%3" 800 900 sample_receiver).
  apply (bool_decide_unpack _). by vm_compute.
Defined.

(** X8. Registering a pane under a key the table does not hold and
    unregistering it again restores the table, provided no earlier binding
    names the pane. *)
Theorem register_then_unregister (env : environ) (pane : string)
    (conversation : option string) (t1 t2 : Z) (st : receiver) :
  keys_unique (mappings st) →
  KStr (mapping_key_of pane conversation) ∉ keys (mappings st) →
  Forall (λ kv, pane_id kv.2 ≠ pane) (mappings st) →
  mappings (final (unregister_pane env pane t2
                     (final (register_pane pane conversation t1 st))))
  = mappings st.
Proof.
  intros Hnd Hfresh Hpane.
  rewrite register_pane_run. cbn [final].
  rewrite unregister_pane_run by (cbn [mappings]; by apply keys_unique_set).
  cbn [final mappings]. rewrite dict_set_fresh by done.
  rewrite filter_app.
  rewrite (filter_all (λ kv : key * mapping, pane_id kv.2 ≠ pane))
    by (by apply Forall_forall).
  rewrite (filter_cons_False (λ kv : key * mapping, pane_id kv.2 ≠ pane));
    [by rewrite app_nil_r | cbn [snd pane_id]; by intros H].
Qed.

Lemma register_then_unregister_witness :
  mappings (final (unregister_pane sample_env "%7" 910
                     (final (register_pane "%7" None 900 sample_receiver))))
  = mappings sample_receiver.
Proof.
  apply (register_then_unregister sample_env "%7" None 900 910 sample_receiver);
    apply (bool_decide_unpack _); by vm_compute.
Defined.

(** X9. Eviction composes: evicting at a time and again at a later time
    leaves the table that a single eviction at the later time leaves; in
    particular evicting twice at the same time is evicting once. *)
Theorem cleanup_stale_mappings_later (now1 now2 : Z) (st : receiver) :
  keys_unique (mappings st) →
  now1 ≤ now2 →
  final (cleanup_stale_mappings now2
           (final (cleanup_stale_mappings now1 st)))
  = final (cleanup_stale_mappings now2 st).
Proof.
  intros Hnd Hle.
  rewrite (cleanup_stale_mappings_run now1 st Hnd). cbn [final].
  rewrite cleanup_stale_mappings_run
    by (cbn [mappings set_mappings]; by apply keys_unique_filter).
  rewrite (cleanup_stale_mappings_run now2 st Hnd).
  cbn [final]. rewrite set_mappings_twice. f_equal.
  cbn [mappings set_mappings]. rewrite list_filter_filter. apply list_filter_iff. intros [k v]. cbn [snd].
  split; [tauto |]. intros H. split; [done | lia].
Qed.

Lemma cleanup_stale_mappings_later_witness :
  final (cleanup_stale_mappings 1400
           (final (cleanup_stale_mappings 620 sample_receiver)))
  = final (cleanup_stale_mappings 1400 sample_receiver).
Proof.
  apply (cleanup_stale_mappings_later 620 1400 sample_receiver).
  - apply (bool_decide_unpack _). by vm_compute.
  - lia.
Defined.

(** ** Requests and the reachable states *)

Lemma preserves_answer_500 (I : receiver → Prop) (m : M response) :
  preserves I m → preserves I (answer_500 m).
Proof.
  intros Hm st Hst. specialize (Hm st Hst). unfold answer_500.
  by destruct (m st).
Qed.

Lemma preserves_do_GET (I : receiver → Prop) now path :
  preserves I (do_GET now path).
Proof.
  unfold do_GET. destruct (String.eqb path "/health"); [| apply preserves_ret].
  apply preserves_bind; [apply preserves_gets | intros ?; apply preserves_ret].
Qed.

(** A property the three registry methods behind [do_POST] keep is kept by
    [do_POST]. *)
Lemma preserves_with_decoded (I : receiver → Prop) body k :
  (∀ decoded, preserves I (k decoded)) → preserves I (with_decoded body k).
Proof.
  intros Hk. destruct body; cbn [with_decoded];
    [apply preserves_ret | apply preserves_raise | apply Hk | apply Hk].
Qed.

Lemma preserves_do_POST (I : receiver → Prop) env now path body :
  (∀ pane conversation, preserves I (register_pane pane conversation now)) →
  (∀ pane, preserves I (unregister_pane env pane now)) →
  (∀ data, preserves I (process_otel_data env now data)) →
  preserves I (do_POST env now path body).
Proof.
  intros Hreg Hunreg Hproc. unfold do_POST. apply preserves_answer_500.
  destruct (bool_decide _).
  { apply preserves_with_decoded. intros [[[pane conversation] data]|];
      (apply preserves_bind; [| intros _; apply preserves_ret]).
    - apply Hproc.
    - intros st Hst. exact (Hproc (OtlpData [] []) st Hst). }
  destruct (String.eqb path "/register").
  { apply preserves_with_decoded. intros [[[pane conversation] data]|];
      [| apply preserves_raise].
    destruct (missing pane); [apply preserves_ret |].
    apply preserves_bind; [apply Hreg | intros ?; apply preserves_ret]. }
  destruct (String.eqb path "/unregister"); [| apply preserves_ret].
  apply preserves_with_decoded. intros [[[pane conversation] data]|];
    [| apply preserves_raise].
  destruct (missing pane); [apply preserves_ret |].
  apply preserves_bind; [apply Hunreg | intros ?; apply preserves_ret].
Qed.

Lemma preserves_table_ok_idle_tick now : preserves table_ok (idle_tick now).
Proof.
  unfold idle_tick.
  apply preserves_bind; [apply preserves_table_ok_cleanup |]. intros _.
  apply preserves_bind; [apply preserves_gets |]. intros [|].
  - apply preserves_bind; [by apply preserves_table_ok_other |].
    intros _. apply preserves_ret.
  - apply preserves_ret.
Qed.

Lemma table_ok_run_event env ev st : table_ok st → table_ok (run_event env ev st).
Proof.
  destruct ev as [path body now|path now|now]; cbn [run_event].
  - apply preserves_do_POST.
    + intros. apply preserves_table_ok_register.
    + intros. apply preserves_table_ok_unregister.
    + intros. apply preserves_table_ok_process_otel_data.
  - apply preserves_do_GET.
  - apply preserves_table_ok_idle_tick.
Qed.

Lemma table_ok_run_events env events st :
  table_ok st → table_ok (run_events env events st).
Proof.
  revert st. induction events as [|ev events IH]; intros st Hst; [done |].
  cbn [run_events foldl]. apply IH. by apply table_ok_run_event.
Qed.

(** X10. In every state a server reaches from its start through requests
    and rounds of the idle checker, no key is bound twice, every pending
    binding sits under the key of its own pane, and so every pane has at most
    one pending binding. *)
Theorem reachable_table_ok (env : environ) (events : list server_event)
    (t0 : Z) :
  let st := run_events env events (init t0) in
  keys_unique (mappings st)
  ∧ pending_keyed (mappings st)
  ∧ ∀ pane, (length (pending_of pane (mappings st)) ≤ 1)%nat.
Proof.
  intros st.
  destruct (table_ok_run_events env events (init t0) (table_ok_init t0))
    as [Hnd Hpk].
  split_and!; [done | done |].
  intros pane. by apply pending_of_at_most_one.
Qed.

Section frame.
Context (I : receiver → Prop).
Hypothesis I_table : ∀ d st, I st → I (set_mappings d st).
Hypothesis I_activity : ∀ t st, I st → I (set_last_activity t st).

Lemma preserves_register_pane pane conversation now :
  preserves I (register_pane pane conversation now).
Proof.
  unfold register_pane.
  apply preserves_bind; [apply preserves_modify, I_activity |]. intros _.
  apply preserves_bind; [by apply preserves_store |]. intros _.
  apply preserves_ret.
Qed.

Hypothesis I_state_dir : ∀ fs st, I st → I (set_state_dir fs st).
Hypothesis I_refresh : ∀ st, I st → I (count_refresh st).

Lemma preserves_unregister_pane env pane now :
  preserves I (unregister_pane env pane now).
Proof.
  unfold unregister_pane.
  apply preserves_bind; [apply preserves_modify, I_activity |]. intros _.
  apply preserves_bind; [apply preserves_gets |]. intros d.
  apply preserves_bind; [apply preserves_for_each; by apply preserves_del |].
  intros _. apply preserves_bind; [by apply preserves_remove_state |].
  intros _. by apply preserves_refresh_tmux.
Qed.

Lemma preserves_process_otel_data env now data :
  preserves I (process_otel_data env now data).
Proof.
  unfold process_otel_data.
  apply preserves_bind; [apply preserves_modify, I_activity |]. intros _.
  apply preserves_try_except.
  apply preserves_bind; [| intros _]; by apply preserves_records.
Qed.

End frame.

(** X11. Requests never ask the server to shut down; a [GET] changes
    nothing at all; a registration, a lookup and a round of the idle checker
    neither write nor delete a state file nor refresh tmux. *)
Theorem requests_frame (env : environ) (now : Z) (st : receiver) :
  (∀ path body,
      shutdown_requested (final (do_POST env now path body st))
      = shutdown_requested st)
  ∧ (∀ path, final (do_GET now path st) = st)
  ∧ (∀ pane conversation,
        let st' := final (register_pane pane conversation now st) in
        state_dir st' = state_dir st ∧ refresh_calls st' = refresh_calls st)
  ∧ (∀ conversation,
        let st' := final (get_pane_for_conversation conversation st) in
        state_dir st' = state_dir st ∧ refresh_calls st' = refresh_calls st)
  ∧ (let st' := final (idle_tick now st) in
     state_dir st' = state_dir st ∧ refresh_calls st' = refresh_calls st).
Proof.
  split_and!.
  - intros path body.
    apply (preserves_do_POST
             (λ st', shutdown_requested st' = shutdown_requested st));
      [intros; by apply preserves_register_pane
      | intros; by apply preserves_unregister_pane
      | intros; by apply preserves_process_otel_data | done].
  - intros path.
    by apply (preserves_do_GET (λ st', st' = st)).
  - intros pane conversation. by rewrite register_pane_run.
  - intros conversation.
    by apply (preserves_get_pane
                (λ st', state_dir st' = state_dir st
                        ∧ refresh_calls st' = refresh_calls st)).
  - enough (preserves (λ st', state_dir st' = state_dir st
                              ∧ refresh_calls st' = refresh_calls st)
                      (idle_tick now)) as H by (by apply H).
    unfold idle_tick.
    apply preserves_bind; [by apply preserves_cleanup |]. intros _.
    apply preserves_bind; [apply preserves_gets |]. intros [|].
    + apply preserves_bind; [by apply preserves_modify |].
      intros _. apply preserves_ret.
    + apply preserves_ret.
Qed.

Lemma try_except_returns (m : M unit) st :
  try_except m st = Returns tt (final (try_except m st)).
Proof. unfold try_except. by destruct (m st). Qed.

Lemma process_otel_data_returns env now data st :
  process_otel_data env now data st
  = Returns tt (final (process_otel_data env now data st)).
Proof.
  unfold process_otel_data. rewrite !run_bind. cbn [touch_activity modify].
  apply try_except_returns.
Qed.





(** X13. A JSON body posted to an OTLP path is always acknowledged with
    status 200, whatever its records do, and counts as activity; a post to
    a path the handler does not know is acknowledged with status 200 and
    changes nothing, whether its body is JSON or not. *)
Theorem do_POST_acknowledges (env : environ) (now : Z) (path : string)
    (st : receiver) :
  (path ∈ otlp_paths →
   ∀ pane conversation data,
     ∃ st', do_POST env now path (Json pane conversation data) st
            = Returns (200%nat, StatusOk) st'
            ∧ st' = final (process_otel_data env now data st)
            ∧ last_activity st' = now)
  ∧ (path ∉ otlp_paths → path ≠ "/register" → path ≠ "/unregister" →
     ∀ body, do_POST env now path body st = Returns (200%nat, StatusOk) st).
Proof.
  unfold do_POST, answer_500. split.
  - intros Hin pane conversation data.
    rewrite bool_decide_eq_true_2 by done. cbn [with_decoded].
    rewrite run_bind, process_otel_data_returns.
    eexists. split_and!; [done | done |].
    apply process_otel_data_activity.
  - intros Hnin Hreg Hunreg body.
    rewrite bool_decide_eq_false_2 by done.
    apply String.eqb_neq in Hreg, Hunreg. by rewrite Hreg, Hunreg.
Qed.

Lemma do_POST_acknowledges_witness :
  ∃ st', do_POST sample_env 900 "/v1/logs"
           (Json None None (OtlpData [[[bad_int_record]]] [])) sample_receiver
         = Returns (200%nat, StatusOk) st'
         ∧ st' = final (process_otel_data sample_env 900
                          (OtlpData [[[bad_int_record]]] []) sample_receiver)
         ∧ last_activity st' = 900.
Proof.
  refine (proj1 (do_POST_acknowledges sample_env 900 "/v1/logs"
                   sample_receiver) _ None None _).
  apply (bool_decide_unpack _). by vm_compute.
Defined.




(** ** The loop of the idle checker *)

Lemma idle_tick_final now st :
  table_ok st →
  idle_tick now st
  = Returns (bool_decide (now - last_activity st > IDLE_TIMEOUT))
            (final (idle_tick now st))
  ∧ table_ok (final (idle_tick now st))
  ∧ last_activity (final (idle_tick now st)) = last_activity st
  ∧ shutdown_requested (final (idle_tick now st))
    = bool_decide (now - last_activity st > IDLE_TIMEOUT)
      || shutdown_requested st.
Proof.
  intros Hok. pose proof Hok as [Hnd _].
  pose proof (preserves_table_ok_idle_tick now st Hok) as Hok'.
  rewrite (idle_tick_run now st Hnd) in *. by cbn [final] in *.
Qed.

(** X16. While nothing else touches the receiver, the idle checker runs
    its rounds without raising, leaves the activity timestamp alone, and has
    asked for shutdown at the end exactly when it had been asked before or
    one of its clock readings was more than [IDLE_TIMEOUT] after the last
    activity; the readings after the first such one play no part. *)
Theorem idle_checker_loop (clock : list Z) (st : receiver) :
  table_ok st →
  (∃ st',
      idle_checker clock st = Returns tt st'
      ∧ last_activity st' = last_activity st
      ∧ (shutdown_requested st' = true ↔
         shutdown_requested st = true
         ∨ Exists (λ now, now - last_activity st > IDLE_TIMEOUT) clock))
  ∧ (∀ before now later,
        clock = before ++ now :: later →
        now - last_activity st > IDLE_TIMEOUT →
        idle_checker clock st = idle_checker (before ++ [now]) st).
Proof.
  intros Hok. split.
  - revert st Hok. induction clock as [|now clock IH]; intros st Hok.
    + exists st. split_and!; [done | done |].
      rewrite Exists_nil. tauto.
    + destruct (idle_tick_final now st Hok) as (Hrun & Hok' & Hact & Hshut).
      cbn [idle_checker]. rewrite run_bind, Hrun.
      destruct (bool_decide _) eqn:Hidle.
      * eexists. split_and!; [done | done |].
        rewrite Hshut, Exists_cons. apply bool_decide_eq_true in Hidle.
        split; [intros _; right; by left | done].
      * destruct (IH _ Hok') as (st' & Hloop & Hact' & Hshut').
        exists st'. split_and!; [done | congruence |].
        rewrite Hshut', Hshut, Hact, Exists_cons. cbn [orb].
        apply bool_decide_eq_false in Hidle. tauto.
  - intros before now later -> Hidle.
    revert st Hok Hidle. induction before as [|t before IH]; intros st Hok Hidle.
    + destruct (idle_tick_final now st Hok) as (Hrun & _).
      cbn [app idle_checker]. rewrite !run_bind, Hrun.
      by rewrite bool_decide_eq_true_2.
    + destruct (idle_tick_final t st Hok) as (Hrun & Hok' & Hact & _).
      cbn [app idle_checker]. rewrite !run_bind, Hrun.
      destruct (bool_decide _); [done |].
      apply IH; [done | by rewrite Hact].
Qed.

Lemma idle_checker_loop_witness :
  idle_checker [760; 820; 1001; 1061] active_receiver
  = idle_checker ([760; 820] ++ [1001]) active_receiver.
Proof.
  refine (proj2 (idle_checker_loop [760; 820; 1001; 1061] active_receiver _)
            [760; 820] 1001 [1061] eq_refl _).
  - split; apply (bool_decide_unpack _); by vm_compute.
  - by vm_compute.
Defined.

(** ** The attribute loop *)

Lemma extract_attributes_cons attr attrs (acc : gmap string value) :
  extract_attributes (attr :: attrs) acc
  = match attribute_value attr with
    | inl e => inl e
    | inr None => extract_attributes attrs acc
    | inr (Some v) =>
        extract_attributes attrs (<[default "" (kv_key attr) := v]> acc)
    end.
Proof.
  cbn [extract_attributes]. unfold attribute_value.
  destruct (kv_value attr) as [sv iv bv]. cbn [stringValue intValue boolValue].
  by destruct sv, iv as [[?|?]|], bv.
Qed.

Lemma attribute_value_raises attr e :
  attribute_value attr = inl e ↔ raises attr e.
Proof.
  unfold attribute_value, raises.
  destruct (kv_value attr) as [sv iv bv]. cbn [stringValue intValue boolValue].
  destruct sv, iv as [[?|?]|], bv; split;
    first [done | by intros [? ?] | by intros [= ->] | by intros [_ [= ->]]].
Qed.


(** X18. The attribute loop reads the list from the left: after a list
    that was read without raising, one more attribute either raises, or is
    dropped when it has none of the three value fields, or overrides what
    its key held; the first of [stringValue], [intValue], [boolValue] that
    is there gives the value. *)
Theorem extract_attributes_snoc (attrs : list key_value) (attr : key_value)
    (acc : gmap string value) :
  extract_attributes (attrs ++ [attr]) acc
  = match extract_attributes attrs acc with
    | inl e => inl e
    | inr attributes =>
        match attribute_value attr with
        | inl e => inl e
        | inr None => inr attributes
        | inr (Some v) => inr (<[default "" (kv_key attr) := v]> attributes)
        end
    end.
Proof.
  revert acc. induction attrs as [|a attrs IH]; intros acc.
  - cbn [app]. rewrite extract_attributes_cons. cbn [extract_attributes].
    by destruct (attribute_value attr) as [e|[v|]].
  - cbn [app]. rewrite !extract_attributes_cons.
    destruct (attribute_value a) as [e|[v|]]; [done | apply IH | apply IH].
Qed.

(** The exception of the attribute loop is that of the first attribute, in
    list order, on which [int(...)] raises. *)
Lemma extract_attributes_first_raise attrs (acc : gmap string value) e :
  extract_attributes attrs acc = inl e
  ↔ ∃ before attr after,
      attrs = before ++ attr :: after
      ∧ Forall (λ a, ¬ raises_on a) before
      ∧ raises attr e.
Proof.
  revert acc. induction attrs as [|a attrs IH]; intros acc.
  - split; [done |]. intros (before & attr & after & Heq & _).
    by destruct before.
  - rewrite extract_attributes_cons.
    destruct (attribute_value a) as [e'|ov] eqn:Hv.
    + apply attribute_value_raises in Hv. split.
      * intros [= ->]. exists [], a, attrs. by split_and!.
      * intros (before & attr & after & Heq & Hb & Hr).
        destruct before as [|b before]; cbn [app] in Heq.
        -- injection Heq as <- _. destruct Hv as [_ Hv], Hr as [_ Hr].
           congruence.
        -- injection Heq as <- _. apply Forall_cons in Hb as [Hb _].
           exfalso. apply Hb. by exists e'.
    + assert (¬ raises_on a) as Hno.
      { intros [e' He'%attribute_value_raises]. congruence. }
      assert (∀ acc', extract_attributes attrs acc' = inl e
                 ↔ ∃ before attr after,
                     a :: attrs = before ++ attr :: after
                     ∧ Forall (λ a, ¬ raises_on a) before
                     ∧ raises attr e) as Hstep.
      { intros acc'. rewrite IH. split.
        - intros (before & attr & after & -> & Hb & Hr).
          exists (a :: before), attr, after. split_and!; [done | | done].
          by constructor.
        - intros (before & attr & after & Heq & Hb & Hr).
          destruct before as [|b before]; cbn [app] in Heq.
          + injection Heq as <- _. exfalso. apply Hno. by exists e.
          + injection Heq as <- ->. apply Forall_cons in Hb as [_ Hb].
            by exists before, attr, after. }
      destruct ov; apply Hstep.
Qed.

(** ** The classifier *)

Lemma tool_message_nonempty prefix tool fallback :
  prefix ≠ "" → fallback ≠ "" → tool_message prefix tool fallback ≠ "".
Proof.
  intros Hp Hf. unfold tool_message. destruct (truthy tool); [| done].
  destruct prefix; [done | by cbn].
Qed.

(** X19. The classifier gives a message exactly when it gives a decision:
    with a status the message is never empty, without one it is empty. *)
Theorem decision_iff_message (event_name : value)
    (attributes : gmap string value) :
  (_map_event_to_state event_name attributes).1 = None
  ↔ (_map_event_to_state event_name attributes).2 = "".
Proof.
  unfold _map_event_to_state.
  repeat match goal with
         | |- context [if ?b then _ else _] =>
             lazymatch b with
             | truthy _ => fail
             | _ => destruct b
             end
         end; cbn [fst snd];
    try (split; [done | intros H; exfalso; revert H];
         first [ by apply tool_message_nonempty
               | by destruct (truthy _)
               | done ]);
    done.
Qed.

Lemma attr_get_insert_ne (attributes : gmap string value) k k' v d :
  k ≠ k' → attr_get (<[k := v]> attributes) k' d = attr_get attributes k' d.
Proof. intros Hne. unfold attr_get. by rewrite lookup_insert_ne. Qed.

(** X20. The classifier reads seven attributes ([model], [tool_name],
    [tool], [status], [needs_approval], [success], [error]); setting any
    other attribute does not change its result. *)
Theorem classifier_reads_seven (event_name : value)
    (attributes : gmap string value) (k : string) (v : value) :
  k ∉ classifier_keys →
  _map_event_to_state event_name (<[k := v]> attributes)
  = _map_event_to_state event_name attributes.
Proof.
  unfold classifier_keys. rewrite !not_elem_of_cons.
  intros (? & ? & ? & ? & ? & ? & ? & _).
  unfold _map_event_to_state.
  rewrite !attr_get_insert_ne by done.
  by rewrite !lookup_insert_ne by done.
Qed.

Lemma classifier_reads_seven_witness :
  _map_event_to_state (VStr "codex.tool_decision")
    (<["conversation_id" := VStr "abc"]> empty_tool_name_attributes)
  = _map_event_to_state (VStr "codex.tool_decision")
      empty_tool_name_attributes.
Proof.
  apply (classifier_reads_seven (VStr "codex.tool_decision")
           empty_tool_name_attributes "conversation_id" (VStr "abc")).
  apply (bool_decide_unpack _). by vm_compute.
Defined.

(** ** Records *)

Lemma process_record_raises env now record st :
  record_event record = None →
  ∃ e, extract_attributes (rec_attributes record) ∅ = inl e
       ∧ _process_record env now record st = Raises e st.
Proof.
  unfold record_event, _process_record. rewrite run_bind.
  destruct (extract_attributes _ _) as [e|attributes]; [| done].
  intros _. by exists e.
Qed.

(** X21. A record that cannot be used leaves the receiver untouched.  When
    [int(...)] raises in the attribute loop, [_process_record] raises that
    exception, the one of the first attribute in list order that has no
    [stringValue] and an [intValue] that [int] rejects, before any lookup.
    When the record has no event name (no truthy [event.name] attribute and
    no name of its own) it returns at once, and no pending binding is
    adopted. *)
Theorem process_record_unusable (env : environ) (now : Z)
    (record : otlp_record) (st : receiver) :
  (∀ before attr after e,
      rec_attributes record = before ++ attr :: after →
      Forall (λ a, ¬ raises_on a) before →
      raises attr e →
      _process_record env now record st = Raises e st)
  ∧ (∀ e, record_event record = Some e → truthy e = false →
          _process_record env now record st = Returns tt st).
Proof.
  split.
  - intros before attr after e Heq Hbefore Hraises.
    assert (extract_attributes (rec_attributes record) ∅ = inl e) as Hex.
    { apply extract_attributes_first_raise. by exists before, attr, after. }
    unfold _process_record. rewrite run_bind. by rewrite Hex.
  - unfold record_event, _process_record. rewrite run_bind.
    destruct (extract_attributes _ _) as [e'|attributes]; [done |].
    cbn [or_raise ret]. intros e [= <-] He. by rewrite He.
Qed.

Lemma process_record_unusable_witness :
  _process_record sample_env 900 bad_int_record pending_receiver
  = Raises ValueError pending_receiver.
Proof.
  refine (proj1 (process_record_unusable sample_env 900 bad_int_record
                   pending_receiver) [] _ [] ValueError eq_refl _ _).
  - constructor.
  - by split.
Defined.

Lemma get_pane_hit conversation m st :
  dict_get (key_of conversation) (mappings st) = Some m →
  get_pane_for_conversation conversation st = Returns (Some (pane_id m)) st.
Proof.
  intros Hget. unfold get_pane_for_conversation. rewrite run_bind.
  cbn [gets]. by rewrite Hget.
Qed.

(** What [_process_record] does once the lookup has answered with a pane. *)
Lemma process_record_resolved env now record st st0 attributes pane :
  extract_attributes (rec_attributes record) ∅ = inr attributes →
  truthy (event_name_of attributes record) = true →
  get_pane_for_conversation (conversation_of attributes) st
  = Returns (Some pane) st0 →
  pane ≠ "" →
  _process_record env now record st
  = Returns tt
      match _map_event_to_state (event_name_of attributes record) attributes
      with
      | (Some s, message) =>
          with_outputs
            (<[lstrip_percent pane
               := written_file env now pane s (conversation_of attributes)
                               message]> (state_dir st0))
            (if env_TMUX env then S (refresh_calls st0) else refresh_calls st0)
            st0
      | (None, _) => st0
      end.
Proof.
  intros Hattrs Hevent Hlookup Hpane.
  unfold _process_record. rewrite run_bind, Hattrs. cbn [or_raise ret].
  rewrite Hevent. cbn [negb].
  rewrite run_bind, Hlookup.
  rewrite run_bind. cbn [no_pane truthy].
  rewrite (proj2 (String.eqb_neq pane "") Hpane).
  cbn [negb mret M_ret ret].
  rewrite (proj2 (String.eqb_neq pane "") Hpane). cbn [negb].
  destruct (_map_event_to_state _ _) as [[s|] message]; [| done].
  rewrite run_bind. cbn [_write_state modify].
  unfold _refresh_tmux. by destruct (env_TMUX env).
Qed.

(** X22. A record with an event name whose conversation id is bound to a
    non-empty pane, and for which the classifier gives a status, writes the
    state file of that pane (status, time, conversation id, tmux window,
    message) under the pane id without leading [%], asks for a refresh when
    [$TMUX] is set, and leaves the table and the activity timestamp as they
    are. *)
Theorem process_record_bound (env : environ) (now : Z) (record : otlp_record)
    (st : receiver) (attributes : gmap string value) (m : mapping)
    (s : status) (message : string) :
  extract_attributes (rec_attributes record) ∅ = inr attributes →
  truthy (event_name_of attributes record) = true →
  dict_get (key_of (conversation_of attributes)) (mappings st) = Some m →
  pane_id m ≠ "" →
  _map_event_to_state (event_name_of attributes record) attributes
  = (Some s, message) →
  _process_record env now record st
  = Returns tt
      (with_outputs
         (<[lstrip_percent (pane_id m)
            := written_file env now (pane_id m) s
                            (conversation_of attributes) message]>
            (state_dir st))
         (if env_TMUX env then S (refresh_calls st) else refresh_calls st)
         st).
Proof.
  intros Hattrs Hevent Hget Hpane Hclass.
  rewrite (process_record_resolved env now record st st attributes (pane_id m))
    by (done || by apply get_pane_hit).
  by rewrite Hclass.
Qed.

Lemma process_record_bound_witness :
  _process_record sample_env 900 response_record sample_receiver
  = Returns tt
      (with_outputs
         (<["3" := StateFile Running 900 (VStr "abc") "@1" "Generating..."]> ∅)
         1 sample_receiver).
Proof.
  refine (process_record_bound sample_env 900 response_record sample_receiver
            (<["conversation_id" := VStr "abc"]>
               (<["event.name" := VStr "codex.response"]> ∅))
            (Mapping "%3" 20 (Some (VStr "abc"))) Running "Generating..."
            _ _ _ _ _); by vm_compute.
Defined.

Lemma del_with_outputs k fs n st :
  del k (with_outputs fs n st)
  = match del k st with
    | Returns r st' => Returns r (with_outputs fs n st')
    | Raises e st' => Raises e (with_outputs fs n st')
    end.
Proof.
  unfold del. cbn [with_outputs mappings].
  by destruct (dict_del k (mappings st)).
Qed.

Lemma adopt_pending_with_outputs conversation (items : table) fs n st :
  adopt_pending conversation items (with_outputs fs n st)
  = match adopt_pending conversation items st with
    | Returns r st' => Returns r (with_outputs fs n st')
    | Raises e st' => Raises e (with_outputs fs n st')
    end.
Proof.
  induction items as [|[k v] items IH]; [done |].
  cbn [adopt_pending]. destruct k as [s|z]; [| done].
  cbn [startswith]. rewrite !run_bind. cbn [mret M_ret ret].
  destruct (_ && _); [| apply IH].
  rewrite !run_bind. cbn [store modify]. rewrite !run_bind.
  change (set_mappings ?d (with_outputs fs n st))
    with (with_outputs fs n (set_mappings d st)).
  rewrite del_with_outputs. by destruct (del _ _).
Qed.

Lemma get_pane_with_outputs conversation fs n st :
  get_pane_for_conversation conversation (with_outputs fs n st)
  = match get_pane_for_conversation conversation st with
    | Returns r st' => Returns r (with_outputs fs n st')
    | Raises e st' => Raises e (with_outputs fs n st')
    end.
Proof.
  unfold get_pane_for_conversation. rewrite !run_bind.
  cbn [gets with_outputs mappings].
  destruct (dict_get _ _); [done |]. apply adopt_pending_with_outputs.
Qed.

(** X23. Ingesting a record a second time changes neither the table nor
    the state directory, when the first time its conversation id was
    resolved by the lookup to a non-empty pane (found or adopted): the second
    time the binding is found and the same state file is written again. *)
Theorem process_record_twice (env : environ) (now : Z) (record : otlp_record)
    (st st0 : receiver) (attributes : gmap string value) (pane : string) :
  extract_attributes (rec_attributes record) ∅ = inr attributes →
  get_pane_for_conversation (conversation_of attributes) st
  = Returns (Some pane) st0 →
  pane ≠ "" →
  let st1 := final (_process_record env now record st) in
  _process_record env now record st = Returns tt st1
  ∧ _process_record env now record st1 = Returns tt (final (_process_record env now record st1))
  ∧ same_bindings_and_files (final (_process_record env now record st1)) st1.
Proof.
  intros Hattrs Hlookup Hpane st1.
  pose proof (get_pane_repeat _ _ _ _ Hlookup) as Hagain.
  destruct (truthy (event_name_of attributes record)) eqn:Hevent.
  2:{ assert (∀ st', _process_record env now record st' = Returns tt st')
        as Hskip.
      { intros st'. unfold _process_record.
        rewrite run_bind, Hattrs. cbn [or_raise ret]. by rewrite Hevent. }
      unfold st1. rewrite !Hskip. by cbn [final]. }
  pose proof (process_record_resolved env now record st st0 attributes pane
                Hattrs Hevent Hlookup Hpane) as Hfirst.
  unfold st1. rewrite Hfirst. cbn [final]. split; [done |].
  destruct (_map_event_to_state _ _) as [[s|] message] eqn:Hclass.
  - set (fs := <[lstrip_percent pane := _]> (state_dir st0)).
    set (n := if env_TMUX env then _ else _).
    assert (get_pane_for_conversation (conversation_of attributes)
              (with_outputs fs n st0)
            = Returns (Some pane) (with_outputs fs n st0)) as Hlookup'.
    { by rewrite get_pane_with_outputs, Hagain. }
    rewrite (process_record_resolved env now record _ _ attributes pane
               Hattrs Hevent Hlookup' Hpane).
    rewrite Hclass. cbn [final]. split; [done |].
    split; cbn [with_outputs mappings state_dir]; [done |].
    unfold fs. apply insert_insert_eq.
  - rewrite (process_record_resolved env now record _ _ attributes pane
               Hattrs Hevent Hagain Hpane).
    rewrite Hclass. by cbn [final].
Qed.

Lemma process_record_twice_witness :
  let st1 := final (_process_record sample_env 20 conversation_start_record
                      pending_receiver) in
  _process_record sample_env 20 conversation_start_record pending_receiver
  = Returns tt st1
  ∧ _process_record sample_env 20 conversation_start_record st1
    = Returns tt
        (final (_process_record sample_env 20 conversation_start_record st1))
  ∧ same_bindings_and_files
      (final (_process_record sample_env 20 conversation_start_record st1))
      st1.
Proof.
  refine (process_record_twice sample_env 20 conversation_start_record
            pending_receiver
            (final (get_pane_for_conversation (VStr "abc") pending_receiver))
            (<["conversation_id" := VStr "abc"]>
               (<["model" := VStr "gpt-5"]>
                  (<["event.name" := VStr "codex.conversation_starts"]> ∅)))
            "%3" _ _ _); by vm_compute.
Defined.


(** ** Batches *)

Lemma for_each_app {A} (xs ys : list A) (body : A → M unit) st :
  for_each (xs ++ ys) body st
  = (for_each xs body ≫= λ _, for_each ys body) st.
Proof.
  revert st. induction xs as [|x xs IH]; intros st; [done |].
  cbn [app for_each]. rewrite !run_bind.
  destruct (body x st) as [[] st'|e st']; [| done].
  by rewrite IH, run_bind.
Qed.

Lemma for_each_nil_r (m : M unit) {A} (body : A → M unit) st :
  (m ≫= λ _, for_each [] body) st = m st.
Proof. rewrite run_bind. by destruct (m st) as [[] st'|e st']. Qed.

(** X24. Log records and spans are processed alike and in one pass: a
    payload is processed as its log records followed by its spans, so the
    same records sent as spans, as logs, or split over both in this order
    leave the same receiver. *)
Theorem process_otel_data_shapes (env : environ) (now : Z)
    (logs spans : list (list (list otlp_record))) (st : receiver) :
  process_otel_data env now (OtlpData logs spans) st
  = process_otel_data env now (OtlpData (logs ++ spans) []) st
  ∧ process_otel_data env now (OtlpData [] spans) st
    = process_otel_data env now (OtlpData spans []) st.
Proof.
  unfold process_otel_data. cbn [resourceLogs resourceSpans].
  rewrite !run_bind. cbn [touch_activity modify].
  unfold try_except. rewrite !for_each_nil_r, for_each_app. split; [done |].
  by rewrite run_bind.
Qed.

(** One record of a scope raising stops the three loops around it. *)
Lemma for_each_raises {A} (xs : list A) (x : A) (ys : list A)
    (body : A → M unit) st :
  (∀ st', ∃ e, body x st' = Raises e st') →
  ∃ e st',
    for_each (xs ++ x :: ys) body st = Raises e st'
    ∧ st' = final (for_each xs body st).
Proof.
  intros Hx. revert st. induction xs as [|a xs IH]; intros st.
  - cbn [app for_each]. rewrite run_bind.
    destruct (Hx st) as [e ->]. by exists e, st.
  - cbn [app for_each]. rewrite !run_bind.
    destruct (body a st) as [[] st'|e st']; [apply IH | by exists e, st'].
Qed.

(** X25. A record whose attribute loop raises ends the whole batch: the
    records before it in its scope are processed, the rest of the scope, the
    later scopes and resources and all spans are skipped, and the request is
    still answered as usual. *)
Theorem process_otel_data_aborts (env : environ) (now : Z)
    (before after : list otlp_record) (bad : otlp_record)
    (scopes : list (list otlp_record))
    (resources spans : list (list (list otlp_record))) (st : receiver) :
  record_event bad = None →
  process_otel_data env now
    (OtlpData (((before ++ bad :: after) :: scopes) :: resources) spans) st
  = process_otel_data env now (OtlpData [[before]] []) st.
Proof.
  intros Hbad. unfold process_otel_data. cbn [resourceLogs resourceSpans].
  rewrite !run_bind. cbn [touch_activity modify].
  unfold try_except. cbn [for_each]. rewrite !run_bind.
  destruct (for_each_raises before bad after (_process_record env now)
              (set_last_activity now st)) as (e & st' & -> & ->).
  { intros st'.
    destruct (process_record_raises env now bad st' Hbad) as (e & _ & He).
    by exists e. }
  by destruct (for_each before _ _) as [[] st'|e' st'].
Qed.

Lemma process_otel_data_aborts_witness :
  process_otel_data sample_env 900
    (OtlpData [[[response_record; bad_int_record; conversation_start_record]]]
              [[[response_record]]]) sample_receiver
  = process_otel_data sample_env 900 (OtlpData [[[response_record]]] [])
      sample_receiver.
Proof.
  by apply (process_otel_data_aborts sample_env 900 [response_record]
              [conversation_start_record] bad_int_record [] []
              [[[response_record]]] sample_receiver).
Defined.

(** ** State files *)

Lemma lstrip_percent_no_percent s :
  String.prefix "%" (lstrip_percent s) = false.
Proof.
  induction s as [|c s IH]; [done |].
  destruct c as [[] [] [] [] [] [] [] []]; try reflexivity. exact IH.
Qed.

(** X26. The state file has the pane id without its leading [%] signs as
    name, so pane ids that differ only in leading [%] signs share one file;
    the file [_write_state] writes for a pane is the one [unregister_pane]
    deletes for it, and after both the state directory is the one before the
    write without that file. *)
Theorem write_then_unregister (env : environ) (now t : Z) (pane : string)
    (s : status) (session : value) (message : string) (st : receiver) :
  keys_unique (mappings st) →
  let st1 := final (_write_state env now pane s session message st) in
  String.prefix "%" (lstrip_percent pane) = false
  ∧ lstrip_percent ("%" ++ pane)%string = lstrip_percent pane
  ∧ state_dir st1 !! lstrip_percent pane
    = Some (written_file env now pane s session message)
  ∧ state_dir (final (unregister_pane env pane t st1))
    = delete (lstrip_percent pane) (state_dir st).
Proof.
  intros Hnd st1. split_and!.
  - apply lstrip_percent_no_percent.
  - done.
  - cbn [st1 _write_state modify final state_dir set_state_dir].
    apply lookup_insert_eq.
  - unfold st1. cbn [_write_state modify final].
    rewrite unregister_pane_run by done.
    cbn [final state_dir set_state_dir]. apply delete_insert_eq.
Qed.

Lemma write_then_unregister_witness :
  state_dir (final (unregister_pane sample_env "%3" 950
      (final (_write_state sample_env 900 "%3" Running (VStr "abc")
                           "Generating..." sample_receiver))))
  = delete (lstrip_percent "%3") (state_dir sample_receiver).
Proof.
  refine (proj2 (proj2 (proj2 (write_then_unregister sample_env 900 950 "%3"
            Running (VStr "abc") "Generating..." sample_receiver _)))).
  apply (bool_decide_unpack _). by vm_compute.
Defined.

(** ** The second scan of a record *)

Lemma any_pending_run conversation pane0 (before after : table) s v st :
  Forall (λ kv, is_str kv.1 = true ∧ pending_named kv.1 = false) before →
  String.prefix "pending_" s = true →
  truthy conversation = true →
  KStr s ∈ keys (mappings st) →
  any_pending conversation pane0 (before ++ (KStr s, v) :: after) st
  = Returns (Some (pane_id v))
      (set_mappings
         (dict_remove (KStr s)
            (dict_set (key_of conversation) (adopted conversation v)
                      (mappings st))) st).
Proof.
  intros Hbefore Hs Hc Hin.
  induction Hbefore as [|[k0 v0] before [Hstr Hnp] _ IH].
  - cbn [app any_pending startswith]. rewrite run_bind. cbn [mret M_ret ret].
    rewrite Hs, Hc. rewrite !run_bind. cbn [store modify].
    rewrite del_present; [done |].
    cbn [mappings set_mappings]. rewrite keys_dict_set.
    case_decide; [done |]. apply elem_of_app. by left.
  - destruct k0 as [s0|z0]; [| done].
    cbn [app any_pending startswith]. rewrite run_bind. cbn [mret M_ret ret].
    cbn [pending_named fst] in Hnp. rewrite Hnp. exact IH.
Qed.

(** X27. The second scan of [_process_record] looks at the key only.  When
    the lookup of a record's non-empty conversation id finds neither a
    binding nor a pending binding, the first binding whose key starts with
    [pending_] is taken although it belongs to a conversation: it is moved
    under the record's conversation id, its old key is deleted, and the
    record's status goes to its pane. *)
Theorem process_record_second_scan (env : environ) (now : Z)
    (record : otlp_record) (st : receiver) (attributes : gmap string value)
    (before after : table) (s : string) (v : mapping) :
  extract_attributes (rec_attributes record) ∅ = inr attributes →
  truthy (event_name_of attributes record) = true →
  truthy (conversation_of attributes) = true →
  str_keys (mappings st) →
  dict_get (key_of (conversation_of attributes)) (mappings st) = None →
  Forall (λ kv, is_pending kv = false) (mappings st) →
  mappings st = before ++ (KStr s, v) :: after →
  Forall (λ kv, pending_named kv.1 = false) before →
  String.prefix "pending_" s = true →
  pane_id v ≠ "" →
  let conversation := conversation_of attributes in
  let st2 :=
    set_mappings
      (dict_remove (KStr s)
         (dict_set (key_of conversation) (adopted conversation v)
                   (mappings st))) st in
  truthy_opt (conversation_id v) = true
  ∧ _process_record env now record st
    = Returns tt
        match _map_event_to_state (event_name_of attributes record) attributes
        with
        | (Some status, message) =>
            with_outputs
              (<[lstrip_percent (pane_id v)
                 := written_file env now (pane_id v) status conversation
                                 message]> (state_dir st))
              (if env_TMUX env then S (refresh_calls st)
               else refresh_calls st)
              st2
        | (None, _) => st2
        end.
Proof.
  intros Hattrs Hevent Hconv Hstr Hmiss Hnone Hd Hbefore Hs Hpane
         conversation st2.
  assert ((KStr s, v) ∈ mappings st) as Hin.
  { rewrite Hd. apply elem_of_app. right. left. }
  split.
  { rewrite Forall_forall in Hnone. specialize (Hnone _ Hin).
    unfold is_pending in Hnone. cbn [fst snd] in Hnone. rewrite Hs in Hnone.
    by destruct (truthy_opt (conversation_id v)). }
  unfold _process_record. rewrite run_bind, Hattrs. cbn [or_raise ret].
  rewrite Hevent. cbn [negb].
  rewrite run_bind, (get_pane_for_conversation_miss _ st) by done.
  rewrite run_bind. cbn [no_pane]. rewrite run_bind. cbn [gets].
  rewrite Hd at 1.
  rewrite (any_pending_run (conversation_of attributes) None before after s v st);
    [| | done | done | exact (list_elem_of_fmap_2 fst _ _ Hin)].
  2:{ rewrite Hd in Hstr. unfold str_keys in Hstr.
      apply Forall_app in Hstr as [Hstr _].
      rewrite Forall_forall in Hstr, Hbefore |- *. intros x Hx. split; auto. }
  cbn [truthy]. rewrite (proj2 (String.eqb_neq (pane_id v) "") Hpane).
  cbn [negb]. fold conversation. fold st2.
  destruct (_map_event_to_state _ _) as [[status|] message]; [| done].
  rewrite run_bind. cbn [_write_state modify].
  unfold _refresh_tmux. by destruct (env_TMUX env).
Qed.

Lemma process_record_second_scan_witness :
  mappings (final (_process_record sample_env 900 other_conversation_record
                                   named_pending_receiver))
  = [(KStr "xyz", Mapping "%5" 10 (Some (VStr "xyz")))].
Proof.
  rewrite (proj2 (process_record_second_scan sample_env 900
             other_conversation_record named_pending_receiver
             (<["conversation_id" := VStr "xyz"]>
                (<["event.name" := VStr "codex.response"]> ∅))
             [] [] "pending_job" (Mapping "%5" 10 (Some (VStr "pending_job")))
             ltac:(by vm_compute) ltac:(by vm_compute) ltac:(by vm_compute)
             ltac:(apply (bool_decide_unpack _); by vm_compute)
             ltac:(by vm_compute)
             ltac:(apply (bool_decide_unpack _); by vm_compute)
             ltac:(by vm_compute) ltac:(constructor) ltac:(by vm_compute)
             ltac:(done))).
  by vm_compute.
Defined.
